(** * BasicMotorControl.c: trapezoidal commutation and speed loop of the PMSMx driver

    A shallow embedding of [Motor Driver Code/PMSMx/BasicMotorControl.c].
    The file-level globals of the C unit and the special-function registers
    it touches are gathered in one record, [State]; every C function is a
    function from [State] to [State] (or to [option State] where the C code
    can divide by zero).  Integers are [Z] with the wrap-around of their C
    type written out; [float] values are IEEE 754 binary32 numbers, as
    specified by [SpecFloat] of the standard library. *)

From Stdlib Require Import ZArith Bool List Lia.
From Stdlib Require Import Floats.SpecFloat.
Import ListNotations.
Local Open Scope Z_scope.

(** ** Machine integers *)

Definition uwrap (bits x : Z) : Z := x mod 2 ^ bits.
Definition swrap (bits x : Z) : Z :=
  (x + 2 ^ (bits - 1)) mod 2 ^ bits - 2 ^ (bits - 1).

Definition uint16 : Z -> Z := uwrap 16.
Definition uint32 : Z -> Z := uwrap 32.
Definition int32 : Z -> Z := swrap 32.

(** Unsigned division as the C code performs it: dividing by zero is
    undefined behaviour (a math-error trap on the dsPIC), rendered [None]. *)
Definition udiv (a b : Z) : option Z :=
  if b =? 0 then None else Some (a / b).

Definition bind {A B : Type} (m : option A) (k : A -> option B) : option B :=
  match m with
  | Some a => k a
  | None => None
  end.

Notation "x <- m ;; k" := (bind m (fun x => k))
  (at level 61, m at next level, right associativity).

(** ** IEEE 754 binary32: the C type [float] *)

Definition float : Type := spec_float.

Definition prec32 : Z := 24.
Definition emax32 : Z := 128.

Definition f32_add : float -> float -> float := SFadd prec32 emax32.
Definition f32_sub : float -> float -> float := SFsub prec32 emax32.
Definition f32_mul : float -> float -> float := SFmul prec32 emax32.
Definition f32_div : float -> float -> float := SFdiv prec32 emax32.
Definition f32_ltb : float -> float -> bool := SFltb.
Definition f32_leb : float -> float -> bool := SFleb.

Definition is_nan (x : float) : bool :=
  match x with
  | S754_nan => true
  | _ => false
  end.

(** Conversion of an integer to [float], rounding to nearest even. *)
Definition f32_of_Z (z : Z) : float := binary_normalize prec32 emax32 z 0 false.

(** Rounding a number held in a wider format to [float]: what an
    assignment to a [float] object does. *)
Definition to_f32 (x : spec_float) : float :=
  match x with
  | S754_finite s m e => binary_normalize prec32 emax32 (cond_Zopp s (Zpos m)) e s
  | _ => x
  end.

(** The integral part of a number, truncated toward zero; [None] for
    infinities and NaN. *)
Definition f32_trunc (x : float) : option Z :=
  match x with
  | S754_zero _ => Some 0
  | S754_finite s m e =>
      Some (cond_Zopp s (if 0 <=? e then Zpos m * 2 ^ e else Zpos m / 2 ^ (- e)))
  | _ => None
  end.

(** ** What the missing headers and the tool chain decide

    [CW] and [CCW] are macros of [BasicMotorControl.h] and the width of
    [motorInfo.hallCount] comes from the same header; neither is part of
    the sources at hand, so they are parameters.  MPLAB XC16 makes [double]
    a 32-bit type unless it is given [-fno-short-double], so the format of
    [double] is a parameter too.  ISO C (Annex F.4) leaves the value of a
    floating-to-integer conversion unspecified when the number does not fit:
    [fix_unspecified] is whatever the run-time library returns then. *)
Class Target : Type := {
  CW : Z;
  CCW : Z;
  hallCount_bits : Z;
  double_prec : Z;
  double_emax : Z;
  fix_unspecified : float -> Z
}.

(** ** The globals of the C unit and the registers it uses *)

(** Modelled from the spec: [BasicMotorControlInfo] is declared in
    [BasicMotorControl.h], which is missing.  The data model of the spec
    gives a signed integer speed estimate, an unsigned transition count and
    the last Hall pattern; the speed is taken as a 32-bit [long], the type
    of the quotient stored in it. *)
Record BasicMotorControlInfo : Type := mkMotorInfo {
  currentSpeed : Z;
  hallCount : Z;
  lastHallState : Z
}.

(** The anonymous [static struct] named [PIDs]. *)
Record PID_t : Type := mkPID {
  Kp : float;
  Ki : float;
  Kd : float;
  err : float;
  der : float;
  output : float;
  integral : float;
  currentError : float
}.

(** Duty-cycle registers of the six gate drivers. *)
Record Gates : Type := mkGates {
  GH_A_DC : Z;
  GL_A_DC : Z;
  GH_B_DC : Z;
  GL_B_DC : Z;
  GH_C_DC : Z;
  GL_C_DC : Z
}.

Record Leds : Type := mkLeds {
  LED1 : Z;
  LED2 : Z;
  LED3 : Z
}.

(** The three Hall inputs; one call of [TrapUpdate] sees one pattern. *)
Record Halls : Type := mkHalls {
  HALL1 : bool;
  HALL2 : bool;
  HALL3 : bool
}.

(** Calls into the DSP library ([dsp.h]), kept as a log. *)
Inductive DspCall : Type :=
| PIDInit
| PIDCoeffCalc (p i d : float).

(** One line handed to [putsUART2]: the two arguments of the [sprintf]. *)
Record DiagLine : Type := mkDiag {
  diag_speed : Z;
  diag_output : float
}.

Record State : Type := mkState {
  motorInfo : BasicMotorControlInfo;
  PIDs : PID_t;
  timerCurr : Z;
  timer : Z;
  commandedTorque : Z;
  changeState : Z;
  TMR2 : Z;
  TMR3HLD : Z;
  gates : Gates;
  leds : Leds;
  halls : Halls;
  CNIF : Z;
  uart2 : list DiagLine;
  speedPID : list DspCall
}.

(** *** Field updates *)

Definition set_currentSpeed (v : Z) (m : BasicMotorControlInfo) :=
  mkMotorInfo v (hallCount m) (lastHallState m).
Definition set_hallCount (v : Z) (m : BasicMotorControlInfo) :=
  mkMotorInfo (currentSpeed m) v (lastHallState m).
Definition set_lastHallState (v : Z) (m : BasicMotorControlInfo) :=
  mkMotorInfo (currentSpeed m) (hallCount m) v.

Definition set_Kp (v : float) (p : PID_t) :=
  mkPID v (Ki p) (Kd p) (err p) (der p) (output p) (integral p) (currentError p).
Definition set_Ki (v : float) (p : PID_t) :=
  mkPID (Kp p) v (Kd p) (err p) (der p) (output p) (integral p) (currentError p).
Definition set_Kd (v : float) (p : PID_t) :=
  mkPID (Kp p) (Ki p) v (err p) (der p) (output p) (integral p) (currentError p).
Definition set_err (v : float) (p : PID_t) :=
  mkPID (Kp p) (Ki p) (Kd p) v (der p) (output p) (integral p) (currentError p).
Definition set_der (v : float) (p : PID_t) :=
  mkPID (Kp p) (Ki p) (Kd p) (err p) v (output p) (integral p) (currentError p).
Definition set_output (v : float) (p : PID_t) :=
  mkPID (Kp p) (Ki p) (Kd p) (err p) (der p) v (integral p) (currentError p).
Definition set_integral (v : float) (p : PID_t) :=
  mkPID (Kp p) (Ki p) (Kd p) (err p) (der p) (output p) v (currentError p).
Definition set_currentError (v : float) (p : PID_t) :=
  mkPID (Kp p) (Ki p) (Kd p) (err p) (der p) (output p) (integral p) v.

Definition set_motorInfo (v : BasicMotorControlInfo) (s : State) :=
  mkState v (PIDs s) (timerCurr s) (timer s) (commandedTorque s) (changeState s)
    (TMR2 s) (TMR3HLD s) (gates s) (leds s) (halls s) (CNIF s) (uart2 s) (speedPID s).
Definition set_PIDs (v : PID_t) (s : State) :=
  mkState (motorInfo s) v (timerCurr s) (timer s) (commandedTorque s) (changeState s)
    (TMR2 s) (TMR3HLD s) (gates s) (leds s) (halls s) (CNIF s) (uart2 s) (speedPID s).
Definition set_timerCurr (v : Z) (s : State) :=
  mkState (motorInfo s) (PIDs s) v (timer s) (commandedTorque s) (changeState s)
    (TMR2 s) (TMR3HLD s) (gates s) (leds s) (halls s) (CNIF s) (uart2 s) (speedPID s).
Definition set_timer (v : Z) (s : State) :=
  mkState (motorInfo s) (PIDs s) (timerCurr s) v (commandedTorque s) (changeState s)
    (TMR2 s) (TMR3HLD s) (gates s) (leds s) (halls s) (CNIF s) (uart2 s) (speedPID s).
Definition set_commandedTorque (v : Z) (s : State) :=
  mkState (motorInfo s) (PIDs s) (timerCurr s) (timer s) v (changeState s)
    (TMR2 s) (TMR3HLD s) (gates s) (leds s) (halls s) (CNIF s) (uart2 s) (speedPID s).
Definition set_changeState (v : Z) (s : State) :=
  mkState (motorInfo s) (PIDs s) (timerCurr s) (timer s) (commandedTorque s) v
    (TMR2 s) (TMR3HLD s) (gates s) (leds s) (halls s) (CNIF s) (uart2 s) (speedPID s).
Definition set_TMR2 (v : Z) (s : State) :=
  mkState (motorInfo s) (PIDs s) (timerCurr s) (timer s) (commandedTorque s) (changeState s)
    v (TMR3HLD s) (gates s) (leds s) (halls s) (CNIF s) (uart2 s) (speedPID s).
Definition set_TMR3HLD (v : Z) (s : State) :=
  mkState (motorInfo s) (PIDs s) (timerCurr s) (timer s) (commandedTorque s) (changeState s)
    (TMR2 s) v (gates s) (leds s) (halls s) (CNIF s) (uart2 s) (speedPID s).
Definition set_gates (v : Gates) (s : State) :=
  mkState (motorInfo s) (PIDs s) (timerCurr s) (timer s) (commandedTorque s) (changeState s)
    (TMR2 s) (TMR3HLD s) v (leds s) (halls s) (CNIF s) (uart2 s) (speedPID s).
Definition set_leds (v : Leds) (s : State) :=
  mkState (motorInfo s) (PIDs s) (timerCurr s) (timer s) (commandedTorque s) (changeState s)
    (TMR2 s) (TMR3HLD s) (gates s) v (halls s) (CNIF s) (uart2 s) (speedPID s).
Definition set_halls (v : Halls) (s : State) :=
  mkState (motorInfo s) (PIDs s) (timerCurr s) (timer s) (commandedTorque s) (changeState s)
    (TMR2 s) (TMR3HLD s) (gates s) (leds s) v (CNIF s) (uart2 s) (speedPID s).
Definition set_CNIF (v : Z) (s : State) :=
  mkState (motorInfo s) (PIDs s) (timerCurr s) (timer s) (commandedTorque s) (changeState s)
    (TMR2 s) (TMR3HLD s) (gates s) (leds s) (halls s) v (uart2 s) (speedPID s).
Definition set_uart2 (v : list DiagLine) (s : State) :=
  mkState (motorInfo s) (PIDs s) (timerCurr s) (timer s) (commandedTorque s) (changeState s)
    (TMR2 s) (TMR3HLD s) (gates s) (leds s) (halls s) (CNIF s) v (speedPID s).
Definition set_speedPID (v : list DspCall) (s : State) :=
  mkState (motorInfo s) (PIDs s) (timerCurr s) (timer s) (commandedTorque s) (changeState s)
    (TMR2 s) (TMR3HLD s) (gates s) (leds s) (halls s) (CNIF s) (uart2 s) v.

(** Writing all six duty cycles and the three LEDs, as every branch of the
    commutation tables does. *)
Definition drive (g : Gates) (l : Leds) (s : State) : State :=
  set_leds l (set_gates g s).

Definition putsUART2 (line : DiagLine) (s : State) : State :=
  set_uart2 (uart2 s ++ [line]) s.

(** ** The functions of BasicMotorControl.c *)

Section Model.
Context {T : Target}.

(** *** [double] arithmetic *)

Definition dbl_add : spec_float -> spec_float -> spec_float :=
  SFadd double_prec double_emax.
Definition dbl_mul : spec_float -> spec_float -> spec_float :=
  SFmul double_prec double_emax.
Definition dbl_div : spec_float -> spec_float -> spec_float :=
  SFdiv double_prec double_emax.
Definition dbl_of_Z (z : Z) : spec_float :=
  binary_normalize double_prec double_emax z 0 false.

(** Promotion of a [float] operand to [double] (exact when [double] is
    at least as wide as [float]). *)
Definition to_double (x : float) : spec_float :=
  match x with
  | S754_finite s m e =>
      binary_normalize double_prec double_emax (cond_Zopp s (Zpos m)) e s
  | _ => x
  end.

(** The literal [.001]: the [double] nearest to one thousandth. *)
Definition dbl_001 : spec_float := dbl_div (dbl_of_Z 1) (dbl_of_Z 1000).

(** Conversion of a [float] to [uint16_t]. *)
Definition f32_to_uint16 (x : float) : Z :=
  match f32_trunc x with
  | Some z =>
      if (0 <=? z) && (z <=? 65535) then z else uint16 (fix_unspecified x)
  | None => uint16 (fix_unspecified x)
  end.

(** *** Initialisation *)

Definition DSPInit (st : State) : State :=
  set_speedPID (speedPID st ++ [PIDInit]) st.

Definition DSPTuningsInit (p i d : float) (st : State) : State :=
  set_speedPID (speedPID st ++ [PIDCoeffCalc p i d]) st.

Definition SpeedControlInit (p i d : float) (st : State) : State :=
  let st := set_motorInfo (set_currentSpeed 0 (motorInfo st)) st in
  let st := set_motorInfo (set_hallCount 0 (motorInfo st)) st in
  let st := set_motorInfo (set_lastHallState 0 (motorInfo st)) st in
  let st := set_PIDs (set_err (f32_of_Z 0) (PIDs st)) st in
  let st := set_PIDs (set_der (f32_of_Z 0) (PIDs st)) st in
  let st := set_PIDs (set_integral (f32_of_Z 0) (PIDs st)) st in
  let st := set_TMR3HLD 0 st in
  let st := set_TMR2 0 st in
  let st := set_timer 0 st in
  let st := set_PIDs (set_Kp p (PIDs st)) st in
  let st := set_PIDs (set_Ki i (PIDs st)) st in
  let st := set_PIDs (set_Kd d (PIDs st)) st in
  let st := DSPInit st in
  DSPTuningsInit p i d st.

Definition SpeedControlChangeTunings (p i d : float) (st : State) : State :=
  DSPTuningsInit p i d st.

(** *** The speed loop *)

(** [SpeedControlStep (uint16_t speed, uint8_t direction, uint8_t update)].
    The statements are taken in source order.  The expression statement
    that follows the assignment to [PIDs.output], [+(PIDs.Kd * PIDs.der /
    .001);], computes a value and drops it. *)
Definition SpeedControlStep (speed direction update : Z) (st : State)
  : option State :=
  if update =? 0 then Some st
  else if changeState st =? 0 then Some st
  else
    ticks <- udiv (timer st) (hallCount (motorInfo st)) ;;
    v <- udiv 52500000 ticks ;;
    let st := set_motorInfo (set_currentSpeed (int32 v) (motorInfo st)) st in
    let p := PIDs st in
    let p := set_currentError (f32_of_Z (speed - currentSpeed (motorInfo st))) p in
    let p := set_der (f32_sub (err p) (currentError p)) p in
    let p := set_integral (f32_add (integral p) (err p)) p in
    let p :=
      if f32_ltb (f32_of_Z 2000000) (integral p)
      then set_integral (f32_of_Z 2000000) p
      else p in
    let p :=
      set_output
        (to_f32
           (dbl_add (to_double (f32_mul (Kp p) (err p)))
              (dbl_mul (to_double (f32_mul (Ki p) (integral p))) dbl_001)))
        p in
    let _ := dbl_div (to_double (f32_mul (Kd p) (der p))) dbl_001 in
    let p :=
      if f32_ltb (f32_of_Z 30000) (output p)
      then set_output (f32_of_Z 30000) p
      else if f32_ltb (output p) (f32_of_Z 0)
           then set_output (f32_of_Z 0) p
           else p in
    let p := set_err (currentError p) p in
    let st := set_PIDs p st in
    let st :=
      set_commandedTorque
        (f32_to_uint16 (f32_div (output (PIDs st)) (f32_of_Z 30))) st in
    ticks' <- udiv (timer st) (hallCount (motorInfo st)) ;;
    v' <- udiv 52500000 ticks' ;;
    let st := putsUART2 (mkDiag v' (output (PIDs st))) st in
    let st := set_motorInfo (set_hallCount 0 (motorInfo st)) st in
    let st := set_changeState 0 st in
    let st := set_timer 0 st in
    let st := set_timerCurr 0 st in
    Some st.

Definition ForceDuty (GH_A GL_A GH_B GL_B GH_C GL_C : Z) (st : State) : State :=
  set_gates (mkGates GH_A GL_A GH_B GL_B GH_C GL_C) st.

(** *** Commutation *)

(** The first part of [TrapUpdate]: count the Hall event, read the 32-bit
    timer pair into [timerCurr], add it to [timer], clear the timer pair
    and raise [changeState]. *)
Definition record_hall_event (st : State) : State :=
  let st :=
    set_motorInfo
      (set_hallCount (uwrap hallCount_bits (hallCount (motorInfo st) + 1))
         (motorInfo st)) st in
  let st := set_timerCurr (TMR2 st) st in
  let st :=
    set_timerCurr
      (Z.lor (timerCurr st)
         (Z.land (uint32 (Z.shiftl (TMR3HLD st) 16)) 0xFFFF0000)) st in
  let st := set_timer (uint32 (timer st + timerCurr st)) st in
  let st := set_TMR3HLD 0 st in
  let st := set_TMR2 0 st in
  set_changeState 1 st.

(** The table under [if (direction == CW)]. *)
Definition commutate_CW (torque : Z) (st : State) : State :=
  let h1 := HALL1 (halls st) in
  let h2 := HALL2 (halls st) in
  let h3 := HALL3 (halls st) in
  if h1 && h2 && negb h3 then
    drive (mkGates 0 0 torque 0 0 torque) (mkLeds 1 1 0) st
  else if negb h1 && h2 && negb h3 then
    drive (mkGates 0 torque torque 0 0 0) (mkLeds 0 1 0) st
  else if negb h1 && h2 && h3 then
    drive (mkGates 0 torque 0 0 torque 0) (mkLeds 0 1 1) st
  else if negb h1 && negb h2 && h3 then
    drive (mkGates 0 0 0 torque torque 0) (mkLeds 0 0 1) st
  else if h1 && negb h2 && h3 then
    drive (mkGates torque 0 0 torque 0 0) (mkLeds 1 0 1) st
  else if h1 && negb h2 && negb h3 then
    drive (mkGates torque 0 0 0 0 torque) (mkLeds 1 0 0) st
  else st.

(** The table under [else if (direction == CCW)]. *)
Definition commutate_CCW (torque : Z) (st : State) : State :=
  let h1 := HALL1 (halls st) in
  let h2 := HALL2 (halls st) in
  let h3 := HALL3 (halls st) in
  if h1 && h2 && negb h3 then
    drive (mkGates 0 0 0 torque torque 0) (mkLeds 1 1 0) st
  else if negb h1 && h2 && negb h3 then
    drive (mkGates torque 0 0 torque 0 0) (mkLeds 0 1 0) st
  else if negb h1 && h2 && h3 then
    drive (mkGates torque 0 0 0 0 torque) (mkLeds 0 1 1) st
  else if negb h1 && negb h2 && h3 then
    drive (mkGates 0 0 torque 0 0 torque) (mkLeds 0 0 1) st
  else if h1 && negb h2 && h3 then
    drive (mkGates 0 torque torque 0 0 0) (mkLeds 1 0 1) st
  else if h1 && negb h2 && negb h3 then
    drive (mkGates 0 torque 0 0 torque 0) (mkLeds 1 0 0) st
  else st.

(** [TrapUpdate (uint16_t torque, uint16_t direction)]. *)
Definition TrapUpdate (torque direction : Z) (st : State) : State :=
  let st := record_hall_event st in
  if direction =? CW then commutate_CW torque st
  else if direction =? CCW then commutate_CCW torque st
  else st.

(** The change-notification interrupt service routine. *)
Definition _CNInterrupt (st : State) : State :=
  let st := TrapUpdate (commandedTorque st) CW st in
  set_CNIF 0 st.

End Model.

(** ** Vocabulary of the properties *)

Inductive Phase : Type := PhaseA | PhaseB | PhaseC.

Definition high_side (g : Gates) (p : Phase) : Z :=
  match p with
  | PhaseA => GH_A_DC g
  | PhaseB => GH_B_DC g
  | PhaseC => GH_C_DC g
  end.

Definition low_side (g : Gates) (p : Phase) : Z :=
  match p with
  | PhaseA => GL_A_DC g
  | PhaseB => GL_B_DC g
  | PhaseC => GL_C_DC g
  end.

(** The six Hall patterns of a turning rotor: not all three bits equal. *)
Definition valid_hall (h : Halls) : bool :=
  (HALL1 h || HALL2 h || HALL3 h) && negb (HALL1 h && HALL2 h && HALL3 h).

(** One phase pair conducts: the high side of [hp] and the low side of a
    different phase [lp] carry [torque], the other four gates carry 0. *)
Definition one_pair_energised (torque : Z) (g : Gates) : Prop :=
  exists hp lp : Phase,
    hp <> lp /\
    high_side g hp = torque /\
    low_side g lp = torque /\
    (forall p, p <> hp -> high_side g p = 0) /\
    (forall p, p <> lp -> low_side g p = 0).

Definition no_shoot_through (g : Gates) : Prop :=
  forall p : Phase, ~ (high_side g p <> 0 /\ low_side g p <> 0).

(** The value of [timerCurr] after the two reads of the timer pair. *)
Definition timer_snapshot (st : State) : Z :=
  Z.lor (TMR2 st) (Z.land (uint32 (Z.shiftl (TMR3HLD st) 16)) 0xFFFF0000).

(** The two saturations of [SpeedControlStep], as functions of the value
    they guard. *)
Definition clamp_integral (x : float) : float :=
  if f32_ltb (f32_of_Z 2000000) x then f32_of_Z 2000000 else x.

Definition clamp_output (x : float) : float :=
  if f32_ltb (f32_of_Z 30000) x then f32_of_Z 30000
  else if f32_ltb x (f32_of_Z 0) then f32_of_Z 0
  else x.

(** The sum assigned to [PIDs.output], before it is clamped: the Kp term
    plus the Ki term. *)
Definition output_sum {T : Target} (kp ki e i : float) : float :=
  to_f32
    (dbl_add (to_double (f32_mul kp e))
       (dbl_mul (to_double (f32_mul ki i)) dbl_001)).

(** ** Concrete set-ups used in the examples *)

(** XC16 with its default 32-bit [double]; the values of [CW] and [CCW]
    and the 16-bit transition count are one admissible choice. *)
Definition xc16 : Target :=
  {| CW := 0; CCW := 1; hallCount_bits := 16;
     double_prec := 24; double_emax := 128;
     fix_unspecified := fun _ => 0 |}.

(** The same with [-fno-short-double]: a binary64 [double]. *)
Definition xc16_long_double : Target :=
  {| CW := 0; CCW := 1; hallCount_bits := 16;
     double_prec := 53; double_emax := 1024;
     fix_unspecified := fun _ => 0 |}.

Definition f32_zero : float := S754_zero false.

(** Start-up: static storage is zero, the registers are clear. *)
Definition power_on (h : Halls) : State :=
  {| motorInfo := mkMotorInfo 0 0 0;
     PIDs := mkPID f32_zero f32_zero f32_zero f32_zero f32_zero f32_zero f32_zero f32_zero;
     timerCurr := 0; timer := 0; commandedTorque := 0; changeState := 0;
     TMR2 := 0; TMR3HLD := 0;
     gates := mkGates 0 0 0 0 0 0; leds := mkLeds 0 0 0; halls := h;
     CNIF := 0; uart2 := []; speedPID := [] |}.

(** A Hall transition as the hardware delivers it: the timer pair has
    counted [ticks], the Hall inputs read [h], and the change-notification
    interrupt runs. *)
Definition hall_transition {T : Target} (ticks : Z) (h : Halls) (st : State)
  : State :=
  _CNInterrupt (set_halls h (set_TMR2 ticks st)).

(** A Hall transition followed by a control step that asks for [speed]. *)
Definition control_round {T : Target} (ticks speed : Z) (st : State)
  : option State :=
  SpeedControlStep speed CW 1 (hall_transition ticks (halls st) st).

(** The Hall patterns and start-up states of the examples. *)
Definition hall_110 : Halls := mkHalls true true false.
Definition hall_000 : Halls := mkHalls false false false.

Definition f32_one : float := S754_finite false 8388608 (-23).
Definition f32_infinity : float := S754_infinity false.

(** The largest finite [float], about 3.4e38. *)
Definition f32_max : float := S754_finite false 16777215 104.

(** [SpeedControlInit (p, i, d)] right after start-up. *)
Definition started (p i d : float) : State :=
  SpeedControlInit p i d (power_on hall_110).

(** The state a control step sees after the rotor has made one Hall
    transition in 52500 timer ticks since [SpeedControlInit (0, 0, 0)]. *)
Definition one_transition : State :=
  hall_transition (T := xc16) 52500 hall_110 (started f32_zero f32_zero f32_zero).

(** The state the second control step sees when the gains are
    Kp = Ki = 1, Kd = 0, the rotor makes one Hall transition every 52500
    ticks (a speed estimate of 1000) and 1500 is asked for: the error of
    the first step, 500, is in [PIDs.err]. *)
Definition second_transition : State :=
  match
    control_round (T := xc16) 52500 1500 (started f32_one f32_one f32_zero)
  with
  | Some st1 => hall_transition (T := xc16) 52500 hall_110 st1
  | None => power_on hall_110
  end.

(** A Hall transition taken before [SpeedControlInit] runs: the
    initialisation clears [hallCount] and leaves [changeState] raised. *)
Definition transition_then_init : State :=
  SpeedControlInit f32_zero f32_zero f32_zero
    (hall_transition (T := xc16) 52500 hall_110 (power_on hall_110)).

(** ** Sequences of Hall events and further vocabulary *)

(** What one Hall transition presents to the interrupt routine: the two
    halves of the 32-bit timer pair and the Hall inputs. *)
Record HallEvent : Type := mkEvent {
  ev_TMR2 : Z;
  ev_TMR3HLD : Z;
  ev_halls : Halls
}.

(** The timer value the routine reads at an event. *)
Definition event_ticks (ev : HallEvent) : Z :=
  Z.lor (ev_TMR2 ev) (Z.land (uint32 (Z.shiftl (ev_TMR3HLD ev) 16)) 0xFFFF0000).

(** The interrupt routine run on one event. *)
Definition deliver {T : Target} (st : State) (ev : HallEvent) : State :=
  _CNInterrupt
    (set_halls (ev_halls ev)
       (set_TMR3HLD (ev_TMR3HLD ev) (set_TMR2 (ev_TMR2 ev) st))).

(** The interrupt routine run on a sequence of events, oldest first, with
    no control step in between. *)
Definition hall_events {T : Target} (evs : list HallEvent) (st : State)
  : State :=
  fold_left deliver evs st.

Definition total_ticks (evs : list HallEvent) : Z :=
  fold_right (fun ev acc => event_ticks ev + acc) 0 evs.

(** A Hall input as the value written to its LED. *)
Definition led_of (b : bool) : Z := if b then 1 else 0.

Definition hall_leds (h : Halls) : Leds :=
  mkLeds (led_of (HALL1 h)) (led_of (HALL2 h)) (led_of (HALL3 h)).

(** The sum a control computation is about to clamp, as a function of the
    state it starts from. *)
Definition unclamped_output {T : Target} (st : State) : float :=
  output_sum (Kp (PIDs st)) (Ki (PIDs st)) (err (PIDs st))
    (clamp_integral (f32_add (integral (PIDs st)) (err (PIDs st)))).

(** [n] Hall transitions of [ticks] ticks, each followed by a control step
    that asks for [speed]. *)
Fixpoint control_rounds {T : Target} (n : nat) (ticks speed : Z) (st : State)
  : option State :=
  match n with
  | O => Some st
  | S k => st1 <- control_round ticks speed st ;; control_rounds k ticks speed st1
  end.

(** The state the second control step sees with gains [p], [i], [d] when
    the rotor makes one Hall transition every 52500 ticks and [speed] is
    asked for. *)
Definition second_transition_at (p i d : float) (speed : Z) : State :=
  match control_round (T := xc16) 52500 speed (started p i d) with
  | Some st1 => hall_transition (T := xc16) 52500 hall_110 st1
  | None => power_on hall_110
  end.

(** What the loop keeps from one round to the next while the integral is
    at its bound. *)
Definition saturated (st : State) : Prop :=
  integral (PIDs st) = f32_of_Z 2000000 /\
  f32_leb (f32_of_Z 0) (err (PIDs st)) = true /\
  timer st = 0 /\
  hallCount (motorInfo st) = 0 /\
  TMR3HLD st = 0.

(** Four Hall transitions of 52500 ticks each. *)
Definition four_events : list HallEvent :=
  repeat (mkEvent 52500 0 hall_110) 4.

(** As many Hall transitions as a 16-bit counter has values. *)
Definition full_count_of_events : list HallEvent :=
  repeat (mkEvent 52500 0 hall_110) (Z.to_nat 65536).

(** A Hall transition that arrives before the timer has counted a tick. *)
Definition instant_transition : State :=
  hall_transition (T := xc16) 0 hall_110 (started f32_zero f32_zero f32_zero).

(** The state left by forty rounds that ask for 65535 from a rotor turning
    at 1000, with all gains zero. *)
Definition forty_rounds : State :=
  match
    control_rounds (T := xc16) 40 52500 65535 (started f32_zero f32_zero f32_zero)
  with
  | Some st => st
  | None => power_on hall_110
  end.

(** The state a control step sees one Hall transition later. *)
Definition after_forty_rounds : State :=
  hall_transition (T := xc16) 52500 hall_110 forty_rounds.

(** ** Vocabulary of the rounding lemmas *)

(** The outcome of [binary_round_aux], as a function of the final
    mantissa and exponent. *)
Definition rounded (prec emax : Z) (s : bool) (m3 e3 : Z) : spec_float :=
  match m3 with
  | Z0 => S754_zero s
  | Zpos p => if e3 <=? emax - prec then S754_finite s p e3 else S754_infinity s
  | Zneg _ => S754_nan
  end.

(** A number that is not negative and whose integral part is at most [c]. *)
Definition trunc_within (c : Z) (x : float) : Prop :=
  exists z, f32_trunc x = Some z /\ 0 <= z <= c.

(** Proofs unfold the arithmetic on purpose only. *)
Arguments f32_of_Z : simpl never.
Arguments f32_add : simpl never.
Arguments f32_sub : simpl never.
Arguments f32_mul : simpl never.
Arguments f32_div : simpl never.
Arguments f32_ltb : simpl never.
Arguments to_f32 : simpl never.
Arguments int32 : simpl never.
Arguments uint16 : simpl never.
Arguments uint32 : simpl never.
Arguments Z.div : simpl never.
Arguments dbl_add : simpl never.
Arguments dbl_mul : simpl never.
Arguments dbl_div : simpl never.
Arguments dbl_of_Z : simpl never.
Arguments dbl_001 : simpl never.
Arguments to_double : simpl never.
Arguments f32_to_uint16 : simpl never.

(** ** Binary32 rounding: powers of two, digits and shifts *)

Lemma pow2_pos (a : Z) : 0 <= a -> 0 < 2 ^ a.
Proof. intros. apply Z.pow_pos_nonneg; lia. Qed.

Lemma pow2_nz (a : Z) : 0 <= a -> 2 ^ a <> 0.
Proof. intros H. pose proof (pow2_pos a H). lia. Qed.

Lemma pow2_le (a b : Z) : a <= b -> 2 ^ a <= 2 ^ b.
Proof. intros. apply Z.pow_le_mono_r; lia. Qed.

Lemma pow2_lt_inv (a b : Z) : 0 <= b -> 2 ^ a < 2 ^ b -> a < b.
Proof. intros Hb H. apply (Z.pow_lt_mono_r_iff 2); lia. Qed.

Lemma pow2_split (a b : Z) : 0 <= a -> 0 <= b -> 2 ^ (a + b) = 2 ^ a * 2 ^ b.
Proof. intros. apply Z.pow_add_r; lia. Qed.

Lemma digits2_pos_bounds (m : positive) :
  2 ^ (Zpos (digits2_pos m) - 1) <= Zpos m < 2 ^ Zpos (digits2_pos m).
Proof.
  induction m as [p IH | p IH | ]; simpl digits2_pos.
  - rewrite Pos2Z.inj_succ.
    replace (Z.succ (Zpos (digits2_pos p)) - 1) with (Z.succ (Zpos (digits2_pos p) - 1)) by lia.
    rewrite !Z.pow_succ_r by lia. lia.
  - rewrite Pos2Z.inj_succ.
    replace (Z.succ (Zpos (digits2_pos p)) - 1) with (Z.succ (Zpos (digits2_pos p) - 1)) by lia.
    rewrite !Z.pow_succ_r by lia. lia.
  - simpl. lia.
Qed.

Lemma Zdigits2_bounds (m : Z) :
  0 < m -> 2 ^ (Zdigits2 m - 1) <= m < 2 ^ Zdigits2 m.
Proof.
  destruct m as [ | p | p]; try lia. intros _. apply digits2_pos_bounds.
Qed.

Lemma Zdigits2_nonneg (m : Z) : 0 <= Zdigits2 m.
Proof. destruct m; simpl; lia. Qed.

Lemma Zdigits2_pos (m : Z) : 0 < m -> 0 < Zdigits2 m.
Proof. destruct m; simpl; lia. Qed.

Lemma Zdigits2_unique (m k : Z) :
  2 ^ (k - 1) <= m < 2 ^ k -> 0 < m -> Zdigits2 m = k.
Proof.
  intros [Hlo Hhi] Hm.
  pose proof (Zdigits2_bounds m Hm) as [Dlo Dhi].
  pose proof (Zdigits2_pos m Hm) as Dpos.
  assert (Hk : 0 < k).
  { destruct (Z_lt_le_dec 0 k) as [ | Hle]; [assumption |].
    destruct (Z.eq_dec k 0) as [-> | Hn]; [simpl in Hhi; lia |].
    rewrite Z.pow_neg_r in Hhi by lia. lia. }
  destruct (Z.lt_trichotomy (Zdigits2 m) k) as [H | [H | H]]; [ | exact H | ].
  - pose proof (pow2_le (Zdigits2 m) (k - 1)). lia.
  - pose proof (pow2_le k (Zdigits2 m - 1)). lia.
Qed.

(* shr *)
(** One step of [shr] halves a non-negative mantissa. *)
Lemma shr_1_m (mrs : shr_record) :
  0 <= shr_m mrs -> shr_m (shr_1 mrs) = shr_m mrs / 2 /\ 0 <= shr_m (shr_1 mrs).
Proof.
  destruct mrs as [m r s]. simpl. intros Hm.
  destruct m as [ | [p | p | ] | p]; cbn [shr_m shr_1]; try lia.
  - split; [reflexivity | lia].
  - split; [ | lia]. apply (Z.div_unique (Zpos p~1) 2 (Zpos p) 1); lia.
  - split; [ | lia]. apply (Z.div_unique (Zpos p~0) 2 (Zpos p) 0); lia.
  - split; [reflexivity | lia].
Qed.

Lemma iter_pos_shr_1_m (p : positive) (mrs : shr_record) :
  0 <= shr_m mrs ->
  shr_m (iter_pos shr_1 p mrs) = shr_m mrs / 2 ^ Zpos p /\
  0 <= shr_m (iter_pos shr_1 p mrs).
Proof.
  revert mrs. induction p as [p IH | p IH | ]; intros mrs Hm; simpl iter_pos.
  - destruct (shr_1_m mrs Hm) as [E1 P1].
    destruct (IH _ P1) as [E2 P2].
    destruct (IH _ P2) as [E3 P3].
    split; [ | exact P3].
    rewrite E3, E2, E1.
    change (Zpos p~1) with (2 * Zpos p + 1).
    replace (2 * Zpos p + 1) with (1 + Zpos p + Zpos p) by lia.
    rewrite !pow2_split by lia.
    rewrite !Z.div_div by first [apply pow2_pos; lia | apply pow2_nz; lia | lia].
    f_equal. change (2 ^ 1) with 2. ring.
  - destruct (IH _ Hm) as [E2 P2].
    destruct (IH _ P2) as [E3 P3].
    split; [ | exact P3].
    rewrite E3, E2.
    change (Zpos p~0) with (2 * Zpos p).
    replace (2 * Zpos p) with (Zpos p + Zpos p) by lia.
    rewrite pow2_split by lia.
    rewrite Z.div_div by first [apply pow2_pos; lia | apply pow2_nz; lia | lia].
    reflexivity.
  - destruct (shr_1_m mrs Hm) as [E1 P1]. split; [ | exact P1].
    rewrite E1. reflexivity.
Qed.

Lemma shr_spec (mrs : shr_record) (e n : Z) :
  0 <= shr_m mrs ->
  shr_m (fst (shr mrs e n)) = shr_m mrs / 2 ^ Z.max n 0 /\
  snd (shr mrs e n) = e + Z.max n 0.
Proof.
  intros Hm. destruct n as [ | p | p]; simpl shr; simpl fst; simpl snd.
  - simpl. rewrite Z.div_1_r. lia.
  - destruct (iter_pos_shr_1_m p mrs Hm) as [E _].
    rewrite E. rewrite Z.max_l by lia. split; reflexivity.
  - replace (Z.max (Z.neg p) 0) with 0 by lia. simpl. rewrite Z.div_1_r. lia.
Qed.

Lemma shr_m_record_of_loc (m : Z) (l : location) :
  shr_m (shr_record_of_loc m l) = m.
Proof. destruct l as [ | [ | | ]]; reflexivity. Qed.

Lemma round_nearest_even_range (m : Z) (l : location) :
  round_nearest_even m l = m \/ round_nearest_even m l = m + 1.
Proof.
  destruct l as [ | [ | | ]]; simpl; auto.
  destruct (Z.even m); auto.
Qed.

Section Round.
Variables prec emax : Z.

(** [binary_round_aux] shifts the mantissa right to the canonical
    exponent, rounds it up by at most one unit, and shifts once more if the
    rounding carried. *)
Lemma binary_round_aux_spec (s : bool) (m e : Z) (l : location) :
  0 <= m ->
  let n := Z.max (fexp prec emax (Zdigits2 m + e) - e) 0 in
  let m1 := m / 2 ^ n in
  let e1 := e + n in
  exists m2,
    (m2 = m1 \/ m2 = m1 + 1) /\
    let n2 := Z.max (fexp prec emax (Zdigits2 m2 + e1) - e1) 0 in
    binary_round_aux prec emax s m e l =
      rounded prec emax s (m2 / 2 ^ n2) (e1 + n2).
Proof.
  intros Hm n m1 e1.
  unfold binary_round_aux, shr_fexp.
  pose proof (shr_spec (shr_record_of_loc m l) e
                (fexp prec emax (Zdigits2 m + e) - e)) as S1.
  rewrite shr_m_record_of_loc in S1. specialize (S1 Hm).
  destruct (shr (shr_record_of_loc m l) e (fexp prec emax (Zdigits2 m + e) - e))
    as [mrs' e'] eqn:E1.
  simpl fst in S1. simpl snd in S1. destruct S1 as [Sm Se].
  fold n in Sm, Se. fold m1 in Sm. fold e1 in Se. subst e'.
  set (m2 := round_nearest_even (shr_m mrs') (loc_of_shr_record mrs')).
  assert (H2 : m2 = m1 \/ m2 = m1 + 1).
  { unfold m2. rewrite <- Sm. apply round_nearest_even_range. }
  assert (Hm1 : 0 <= m1).
  { unfold m1. apply Z.div_pos; [lia | apply pow2_pos; lia]. }
  assert (Hm2 : 0 <= m2) by lia.
  exists m2. split; [exact H2 |]. cbv zeta.
  pose proof (shr_spec (shr_record_of_loc m2 loc_Exact) e1
                (fexp prec emax (Zdigits2 m2 + e1) - e1)) as S2.
  rewrite shr_m_record_of_loc in S2. specialize (S2 Hm2).
  destruct (shr (shr_record_of_loc m2 loc_Exact) e1
              (fexp prec emax (Zdigits2 m2 + e1) - e1)) as [mrs'' e''] eqn:E2.
  simpl fst in S2. simpl snd in S2. destruct S2 as [Sm2 Se2].
  rewrite Sm2, Se2. reflexivity.
Qed.
End Round.

(** ** Binary32 rounding: results are well formed *)

Lemma fexp32 (z : Z) : fexp prec32 emax32 z = Z.max (z - 24) (-149).
Proof. reflexivity. Qed.

Lemma Zdigits2_div_pow2 (m n : Z) :
  0 <= n -> 0 < m / 2 ^ n -> Zdigits2 (m / 2 ^ n) = Zdigits2 m - n.
Proof.
  intros Hn Hq.
  pose proof (pow2_pos n Hn) as Pn.
  assert (Hm : 0 < m).
  { destruct (Z_lt_le_dec 0 m) as [ | Hle]; [assumption |].
    assert (m / 2 ^ n <= 0) by (apply Z.div_le_upper_bound; lia). lia. }
  pose proof (Zdigits2_bounds m Hm) as [Dlo Dhi].
  assert (Hge : 2 ^ n <= m).
  { destruct (Z_lt_le_dec m (2 ^ n)) as [Hlt | ]; [ | assumption].
    rewrite Z.div_small in Hq by lia. lia. }
  assert (Hnd : n < Zdigits2 m).
  { apply pow2_lt_inv; [apply Zdigits2_nonneg | lia]. }
  apply Zdigits2_unique; [ | exact Hq]. split.
  - apply Z.div_le_lower_bound; [lia |].
    rewrite <- pow2_split by lia.
    replace (n + (Zdigits2 m - n - 1)) with (Zdigits2 m - 1) by lia. exact Dlo.
  - apply Z.div_lt_upper_bound; [lia |].
    rewrite <- pow2_split by lia.
    replace (n + (Zdigits2 m - n)) with (Zdigits2 m) by lia. exact Dhi.
Qed.

Lemma Zdigits2_succ (m : Z) :
  0 < m ->
  Zdigits2 (m + 1) = Zdigits2 m \/
  (m + 1 = 2 ^ Zdigits2 m /\ Zdigits2 (m + 1) = Zdigits2 m + 1).
Proof.
  intros Hm.
  pose proof (Zdigits2_bounds m Hm) as [Dlo Dhi].
  pose proof (Zdigits2_pos m Hm) as Dp.
  destruct (Z.eq_dec (m + 1) (2 ^ Zdigits2 m)) as [E | N].
  - right. split; [exact E |].
    apply Zdigits2_unique; [ | lia].
    replace (Zdigits2 m + 1 - 1) with (Zdigits2 m) by lia.
    replace (Zdigits2 m + 1) with (Z.succ (Zdigits2 m)) by lia.
    rewrite Z.pow_succ_r by lia. lia.
  - left. apply Zdigits2_unique; lia.
Qed.

Lemma Zdigits2_pow2 (k : Z) : 0 <= k -> Zdigits2 (2 ^ k) = k + 1.
Proof.
  intros Hk. pose proof (pow2_pos k Hk).
  apply Zdigits2_unique; [ | lia].
  replace (k + 1 - 1) with k by lia.
  replace (k + 1) with (Z.succ k) by lia.
  rewrite Z.pow_succ_r by lia. lia.
Qed.

Lemma pow2_half (k : Z) : 0 < k -> 2 ^ k / 2 ^ 1 = 2 ^ (k - 1).
Proof.
  intros Hk. replace k with (Z.succ (k - 1)) at 1 by lia.
  rewrite Z.pow_succ_r by lia. change (2 ^ 1) with 2.
  rewrite Z.mul_comm. apply Z.div_mul. lia.
Qed.

Lemma valid_rounded32 (s : bool) (m e : Z) :
  (0 < m -> Z.max (Zdigits2 m + e - 24) (-149) = e) ->
  valid_binary prec32 emax32 (rounded prec32 emax32 s m e) = true.
Proof.
  intros Hc. unfold rounded. destruct m as [ | p | p]; try reflexivity.
  destruct (Z.leb_spec e (emax32 - prec32)) as [Hle | Hgt]; [ | reflexivity].
  simpl. unfold bounded, canonical_mantissa. rewrite fexp32.
  specialize (Hc eq_refl). simpl Zdigits2 in Hc.
  apply andb_true_intro. split.
  - apply Z.eqb_eq. lia.
  - apply Z.leb_le. exact Hle.
Qed.

(** Rounding a mantissa whose exponent is not above its canonical one
    yields a well-formed binary32 number. *)
Lemma binary_round_aux_valid32 (s : bool) (m e : Z) (l : location) :
  0 <= m ->
  e <= fexp prec32 emax32 (Zdigits2 m + e) ->
  valid_binary prec32 emax32 (binary_round_aux prec32 emax32 s m e l) = true.
Proof.
  intros Hm He.
  destruct (binary_round_aux_spec prec32 emax32 s m e l Hm) as (m2 & H2 & ->).
  rewrite !fexp32 in *.
  set (d := Zdigits2 m) in *.
  assert (Hn : Z.max (Z.max (d + e - 24) (-149) - e) 0 = Z.max (d + e - 24) (-149) - e) by lia.
  rewrite Hn in *. clear Hn.
  set (n := Z.max (d + e - 24) (-149) - e) in *.
  assert (Hn0 : 0 <= n) by (unfold n; lia).
  set (m1 := m / 2 ^ n) in *.
  set (e1 := e + n) in *.
  assert (He1 : e1 = Z.max (d + e - 24) (-149)) by (unfold e1, n; lia).
  assert (Hm1 : 0 <= m1) by (apply Z.div_pos; [lia | apply pow2_pos; lia]).
  apply valid_rounded32.
  assert (D1 : 0 < m1 -> Zdigits2 m1 = d - n).
  { intros P. apply Zdigits2_div_pow2; assumption. }
  assert (Hd : m1 = 0 -> d <= n).
  { intros Z1. destruct (Z.eq_dec m 0) as [Hmz | Hmz];
      [unfold d; rewrite Hmz; simpl; lia |].
    pose proof (Zdigits2_bounds m ltac:(lia)) as [Dlo Dhi]. fold d in Dlo, Dhi.
    destruct (Z_lt_le_dec n d) as [Hlt | ]; [ | assumption].
    assert (2 ^ n <= m) by (pose proof (pow2_le n (d - 1)); lia).
    assert (1 <= m / 2 ^ n)
      by (apply Z.div_le_lower_bound; [apply pow2_pos; lia | lia]).
    fold m1 in H0. lia. }
  assert (Shift0 : forall k, 0 < k ->
            Z.max (Zdigits2 k + e1 - 24) (-149) = e1 ->
            0 < k / 2 ^ Z.max (Z.max (Zdigits2 k + e1 - 24) (-149) - e1) 0 ->
            Z.max (Zdigits2 (k / 2 ^ Z.max (Z.max (Zdigits2 k + e1 - 24) (-149) - e1) 0)
                   + (e1 + Z.max (Z.max (Zdigits2 k + e1 - 24) (-149) - e1) 0) - 24) (-149)
            = e1 + Z.max (Z.max (Zdigits2 k + e1 - 24) (-149) - e1) 0).
  { intros k Hk Hcan _. rewrite Hcan.
    replace (Z.max (e1 - e1) 0) with 0 by lia.
    change (2 ^ 0) with 1. rewrite Z.div_1_r. lia. }
  destruct (Z.eq_dec m1 0) as [Z1 | NZ1].
  - (* every digit was shifted out *)
    specialize (Hd Z1).
    destruct H2 as [-> | ->]; rewrite Z1.
    + intros Hpos. rewrite Z.div_0_l in Hpos; [lia |].
      apply pow2_nz. lia.
    + change (0 + 1) with 1. apply Shift0; [lia |]. change (Zdigits2 1) with 1. lia.
  - assert (P1 : 0 < m1) by lia.
    specialize (D1 P1).
    destruct H2 as [-> | ->].
    + apply Shift0; [lia | lia].
    + destruct (Zdigits2_succ m1 P1) as [Same | [Epow Dsucc]].
      * apply Shift0; [lia | lia].
      * destruct (Z.eq_dec (Zdigits2 m1) 24) as [Full | NotFull].
        -- intros _. rewrite Dsucc, Full.
           replace (Z.max (Z.max (24 + 1 + e1 - 24) (-149) - e1) 0) with 1 by lia.
           rewrite Epow, Full.
           rewrite pow2_half by lia. rewrite Zdigits2_pow2 by lia. lia.
        -- apply Shift0; [lia | lia].
Qed.

Lemma digits2_pos_iter_xO (m d : positive) :
  Zpos (digits2_pos (Pos.iter xO m d)) = Zpos (digits2_pos m) + Zpos d.
Proof.
  induction d as [ | d IH] using Pos.peano_ind.
  - simpl. lia.
  - rewrite Pos.iter_succ. simpl digits2_pos. rewrite Pos2Z.inj_succ, IH. lia.
Qed.

Lemma shl_align_canonical (prec emax : Z) (m : positive) (e : Z) :
  let '(mz, ez) := shl_align m e (fexp prec emax (Zpos (digits2_pos m) + e)) in
  ez <= fexp prec emax (Zpos (digits2_pos mz) + ez).
Proof.
  unfold shl_align.
  destruct (fexp prec emax (Zpos (digits2_pos m) + e) - e) as [ | d | d] eqn:E.
  - lia.
  - lia.
  - rewrite digits2_pos_iter_xO.
    replace (Zpos (digits2_pos m) + Zpos d + fexp prec emax (Zpos (digits2_pos m) + e))
      with (Zpos (digits2_pos m) + e) by lia.
    lia.
Qed.

Lemma binary_round_valid32 (s : bool) (m : positive) (e : Z) :
  valid_binary prec32 emax32 (binary_round prec32 emax32 s m e) = true.
Proof.
  unfold binary_round.
  pose proof (shl_align_canonical prec32 emax32 m e) as H.
  destruct (shl_align m e (fexp prec32 emax32 (Zpos (digits2_pos m) + e))) as [mz ez].
  apply binary_round_aux_valid32; [lia | exact H].
Qed.

Lemma binary_normalize_valid32 (m e : Z) (s : bool) :
  valid_binary prec32 emax32 (binary_normalize prec32 emax32 m e s) = true.
Proof.
  destruct m; simpl; [reflexivity | apply binary_round_valid32 ..].
Qed.

Lemma to_f32_valid (x : spec_float) : valid_binary prec32 emax32 (to_f32 x) = true.
Proof.
  destruct x; try reflexivity. apply binary_normalize_valid32.
Qed.

(** ** Binary32: comparison, the clamps and the division by 30 *)

(** [m * 2^(e+149)] is the value of the pair [(m, e)] in units of the
    smallest binary32 number. *)
Lemma rounded_trunc_within (m e : Z) :
  0 <= m -> -149 <= e ->
  m * 2 ^ (e + 149) <= 1000 * 2 ^ 149 ->
  trunc_within 1000 (rounded prec32 emax32 false m e).
Proof.
  intros Hm He Hv.
  pose proof (pow2_pos (e + 149) ltac:(lia)) as Pe.
  unfold rounded. destruct m as [ | p | p]; [ | | lia].
  - exists 0. split; [reflexivity | lia].
  - assert (He10 : e < 10).
    { assert (2 ^ (e + 149) < 2 ^ 159).
      { change (2 ^ 159) with (1024 * 2 ^ 149).
        pose proof (pow2_pos 149 ltac:(lia)). nia. }
      apply pow2_lt_inv in H; lia. }
    destruct (Z.leb_spec e (emax32 - prec32)) as [_ | Hgt];
      [ | unfold emax32, prec32 in Hgt; lia].
    unfold trunc_within, f32_trunc. eexists. split; [reflexivity |].
    unfold cond_Zopp.
    destruct (Z.leb_spec 0 e) as [Hnn | Hneg].
    + rewrite pow2_split in Hv by lia.
      pose proof (pow2_pos e Hnn). pose proof (pow2_pos 149 ltac:(lia)).
      split; [nia |].
      apply Z.mul_le_mono_pos_r with (p := 2 ^ 149); [lia |]. lia.
    + pose proof (pow2_pos (- e) ltac:(lia)) as Pn.
      split; [apply Z.div_pos; lia |].
      apply Z.div_le_upper_bound; [lia |].
      assert (E : 2 ^ 149 = 2 ^ (- e) * 2 ^ (e + 149)).
      { rewrite <- pow2_split by lia. f_equal. lia. }
      rewrite E in Hv.
      apply Z.mul_le_mono_pos_r with (p := 2 ^ (e + 149)); [lia |]. lia.
Qed.

(** Rounding a value below 1000 gives a number whose integral part is at
    most 1000: the bound is a multiple of the rounding unit. *)
Lemma binary_round_aux_trunc_within (m e : Z) (l : location) :
  0 <= m -> -149 <= e <= 0 ->
  m * 2 ^ (e + 149) < 1000 * 2 ^ 149 ->
  trunc_within 1000 (binary_round_aux prec32 emax32 false m e l).
Proof.
  intros Hm He Hv.
  destruct (binary_round_aux_spec prec32 emax32 false m e l Hm) as (m2 & H2 & ->).
  rewrite !fexp32 in *.
  pose proof (pow2_pos (e + 149) ltac:(lia)) as Pe.
  pose proof (pow2_pos 149 ltac:(lia)) as P149.
  (* the digits of [m] *)
  assert (Hd : Zdigits2 m + e < 11).
  { destruct (Z.eq_dec m 0) as [-> | Hmz]; [simpl; lia |].
    pose proof (Zdigits2_bounds m ltac:(lia)) as [Dlo _].
    pose proof (Zdigits2_pos m ltac:(lia)) as Dp.
    assert (2 ^ (Zdigits2 m - 1) * 2 ^ (e + 149) < 2 ^ 159).
    { change (2 ^ 159) with (1024 * 2 ^ 149). nia. }
    rewrite <- pow2_split in H by lia.
    apply pow2_lt_inv in H; lia. }
  set (n := Z.max (Z.max (Zdigits2 m + e - 24) (-149) - e) 0) in *.
  assert (Hn : 0 <= n) by (unfold n; lia).
  assert (He1 : -149 <= e + n <= 0) by (unfold n; lia).
  pose proof (pow2_pos n Hn) as Pn.
  pose proof (pow2_pos (e + n + 149) ltac:(lia)) as Pe1.
  assert (Epow : 2 ^ (e + n + 149) = 2 ^ n * 2 ^ (e + 149)).
  { rewrite <- pow2_split by lia. f_equal. lia. }
  set (m1 := m / 2 ^ n) in *.
  assert (Hm1 : 0 <= m1) by (apply Z.div_pos; lia).
  assert (Hq : m1 * 2 ^ n <= m).
  { unfold m1. rewrite Z.mul_comm. apply Z.mul_div_le. lia. }
  (* the bound survives rounding up, 1000 being a multiple of the unit *)
  assert (Hk : 1000 * 2 ^ 149 = (1000 * 2 ^ (- (e + n))) * 2 ^ (e + n + 149)).
  { rewrite <- Z.mul_assoc, <- pow2_split by lia. do 2 f_equal. lia. }
  pose proof (pow2_pos (- (e + n)) ltac:(lia)) as Pk.
  assert (Hlt : m1 < 1000 * 2 ^ (- (e + n))).
  { apply Z.mul_lt_mono_pos_r with (p := 2 ^ (e + n + 149)); [lia |].
    rewrite <- Hk. rewrite Epow. nia. }
  assert (Hm2 : 0 <= m2 /\ m2 * 2 ^ (e + n + 149) <= 1000 * 2 ^ 149).
  { split; [lia |]. rewrite Hk.
    apply Z.mul_le_mono_nonneg_r; lia. }
  destruct Hm2 as [Hm2 Hv2].
  set (n2 := Z.max (Z.max (Zdigits2 m2 + (e + n) - 24) (-149) - (e + n)) 0) in *.
  assert (Hn2 : 0 <= n2) by (unfold n2; lia).
  pose proof (pow2_pos n2 Hn2) as Pn2.
  apply rounded_trunc_within.
  - apply Z.div_pos; lia.
  - lia.
  - assert (Epow2 : 2 ^ (e + n + n2 + 149) = 2 ^ n2 * 2 ^ (e + n + 149)).
    { rewrite <- pow2_split by lia. f_equal. lia. }
    rewrite Epow2.
    assert (m2 / 2 ^ n2 * 2 ^ n2 <= m2).
    { rewrite Z.mul_comm. apply Z.mul_div_le. lia. }
    nia.
Qed.

Lemma f32_of_Z_0 : f32_of_Z 0 = S754_zero false.
Proof. reflexivity. Qed.
Lemma f32_of_Z_30 : f32_of_Z 30 = S754_finite false 15728640 (-19).
Proof. reflexivity. Qed.
Lemma f32_of_Z_30000 : f32_of_Z 30000 = S754_finite false 15360000 (-9).
Proof. reflexivity. Qed.
Lemma f32_of_Z_2000000 : f32_of_Z 2000000 = S754_finite false 16000000 (-3).
Proof. reflexivity. Qed.

(** The conversions on familiar numbers: 200 / 30 is truncated to 6,
    30000 / 30 is 1000, and one thousandth of 500 is a half. *)
Example f32_200_div_30 :
  f32_to_uint16 (T := xc16) (f32_div (f32_of_Z 200) (f32_of_Z 30)) = 6.
Proof. reflexivity. Qed.

Example f32_30000_div_30 :
  f32_to_uint16 (T := xc16) (f32_div (f32_of_Z 30000) (f32_of_Z 30)) = 1000.
Proof. reflexivity. Qed.

Example dbl_500_thousandths :
  to_f32 (dbl_mul (T := xc16_long_double)
            (to_double (T := xc16_long_double) (f32_of_Z 500))
            (dbl_001 (T := xc16_long_double))) =
  S754_finite false 8388608 (-24).
Proof. vm_compute. reflexivity. Qed.

(** The integer quotient computed by the division of two mantissas. *)
Lemma SFdiv_core_binary_spec (prec emax : Z) (m1 : positive) (e1 : Z) (m2 : positive) (e2 : Z) :
  let e' := Z.min (fexp prec emax (Zpos (digits2_pos m1) + e1 - (Zpos (digits2_pos m2) + e2))) (e1 - e2) in
  exists l,
    SFdiv_core_binary prec emax (Zpos m1) e1 (Zpos m2) e2 =
      (Zpos m1 * 2 ^ (e1 - e2 - e') / Zpos m2, e', l).
Proof.
  intros e'. unfold SFdiv_core_binary. simpl Zdigits2. fold e'.
  assert (Hs : 0 <= e1 - e2 - e') by (unfold e'; lia).
  assert (Em : match e1 - e2 - e' with
               | Z0 => Zpos m1
               | Zpos _ => Z.shiftl (Zpos m1) (e1 - e2 - e')
               | Zneg _ => 0
               end = Zpos m1 * 2 ^ (e1 - e2 - e')).
  { destruct (e1 - e2 - e') as [ | s | s] eqn:Es.
    - simpl. lia.
    - rewrite Z.shiftl_mul_pow2 by lia. reflexivity.
    - lia. }
  rewrite Em.
  unfold Z.div.
  destruct (Z.div_eucl (Zpos m1 * 2 ^ (e1 - e2 - e')) (Zpos m2)) as [q r].
  eexists. reflexivity.
Qed.

(** A positive well-formed number below 30000, divided by 30, has an
    integral part of at most 1000. *)
Lemma f32_div_30_trunc_finite (mx : positive) (ex : Z) :
  canonical_mantissa prec32 emax32 mx ex = true ->
  ex < -9 \/ (ex = -9 /\ Zpos mx < 15360000) ->
  trunc_within 1000 (f32_div (S754_finite false mx ex) (f32_of_Z 30)).
Proof.
  intros Hcan Hlt.
  unfold canonical_mantissa in Hcan. rewrite fexp32 in Hcan.
  apply Z.eqb_eq in Hcan.
  pose proof (digits2_pos_bounds mx) as [Dlo Dhi].
  set (d := Zpos (digits2_pos mx)) in *.
  assert (Hd : 1 <= d <= 24) by (unfold d in *; lia).
  assert (Hex : -149 <= ex <= -9) by lia.
  rewrite f32_of_Z_30. unfold f32_div, SFdiv.
  destruct (SFdiv_core_binary_spec prec32 emax32 mx ex 15728640 (-19)) as [l ->].
  change (Zpos (digits2_pos 15728640)) with 24.
  rewrite fexp32. fold d.
  set (e' := Z.min (Z.max (d + ex - (24 + -19) - 24) (-149)) (ex - -19)).
  assert (He' : -149 <= e' <= -14) by (unfold e'; lia).
  set (s := ex - -19 - e').
  assert (Hs : 0 <= s) by (unfold s, e'; lia).
  pose proof (pow2_pos s Hs) as Ps.
  pose proof (pow2_pos (e' + 149) ltac:(lia)) as Pe'.
  pose proof (pow2_pos (ex + 149) ltac:(lia)) as Pex.
  pose proof (pow2_pos 149 ltac:(lia)) as P149.
  set (q := Zpos mx * 2 ^ s / 15728640).
  assert (Hq0 : 0 <= q) by (apply Z.div_pos; lia).
  assert (Hq : q * 15728640 <= Zpos mx * 2 ^ s).
  { unfold q. rewrite Z.mul_comm. apply Z.mul_div_le. lia. }
  simpl xorb.
  apply binary_round_aux_trunc_within; [exact Hq0 | lia |].
  (* the value of the dividend, in units of 2^-149 *)
  assert (Hv : Zpos mx * 2 ^ (ex + 149) < 30000 * 2 ^ 149).
  { destruct Hlt as [Hlt | [-> Hlt]].
    - assert (2 ^ (ex + 149) <= 2 ^ 139) by (apply pow2_le; lia).
      assert (2 ^ d <= 2 ^ 24) by (apply pow2_le; lia).
      change (2 ^ 24) with 16777216 in H0.
      change (2 ^ 149) with (1024 * 2 ^ 139).
      pose proof (pow2_pos 139 ltac:(lia)). nia.
    - change (2 ^ (-9 + 149)) with (2 ^ 140).
      change (2 ^ 149) with (512 * 2 ^ 140).
      pose proof (pow2_pos 140 ltac:(lia)).
      nia. }
  assert (Epow : 2 ^ s * 2 ^ (e' + 149) = 524288 * 2 ^ (ex + 149)).
  { rewrite <- pow2_split by lia.
    replace (s + (e' + 149)) with (19 + (ex + 149)) by (unfold s; lia).
    rewrite pow2_split by lia. reflexivity. }
  assert (H1 : q * 15728640 * 2 ^ (e' + 149) <= Zpos mx * 2 ^ s * 2 ^ (e' + 149)).
  { apply Z.mul_le_mono_nonneg_r; lia. }
  assert (H2 : Zpos mx * 2 ^ s * 2 ^ (e' + 149) = 524288 * (Zpos mx * 2 ^ (ex + 149))).
  { rewrite <- Z.mul_assoc, Epow. ring. }
  rewrite H2 in H1. fold q. lia.
Qed.

(** Swapping the operands of a comparison swaps its outcome. *)
Lemma SFcompare_swap (x y : spec_float) :
  SFcompare y x = option_map CompOpp (SFcompare x y).
Proof.
  destruct x as [sx | sx | | sx mx ex], y as [sy | sy | | sy my ey];
    try reflexivity;
    try (destruct sx, sy; reflexivity);
    try (destruct sx; reflexivity);
    try (destruct sy; reflexivity).
  simpl. f_equal.
  rewrite (Z.compare_antisym ex ey).
  change (Pos.compare_cont Eq my mx) with (Pos.compare my mx).
  change (Pos.compare_cont Eq mx my) with (Pos.compare mx my).
  rewrite (Pos.compare_antisym mx my).
  destruct sx, sy; try reflexivity;
    destruct (ex ?= ey); simpl; try reflexivity;
    destruct (mx ?= my)%positive; reflexivity.
Qed.

Lemma SFcompare_defined (x y : spec_float) :
  is_nan x = false -> is_nan y = false -> exists c, SFcompare x y = Some c.
Proof.
  destruct x, y; simpl; intros Hx Hy; try discriminate; eexists; reflexivity.
Qed.

(** Among numbers, "not less than" is "greater or equal". *)
Lemma f32_ltb_false_leb (x y : float) :
  is_nan x = false -> is_nan y = false ->
  f32_ltb x y = false -> f32_leb y x = true.
Proof.
  intros Hx Hy. unfold f32_ltb, f32_leb, SFltb, SFleb.
  rewrite (SFcompare_swap x y).
  destruct (SFcompare_defined x y Hx Hy) as [c ->].
  destruct c; simpl; congruence.
Qed.

Lemma clamp_output_nan (x : float) : is_nan (clamp_output x) = is_nan x.
Proof.
  unfold clamp_output.
  destruct (f32_ltb (f32_of_Z 30000) x) eqn:Hhi.
  - destruct x; try reflexivity. discriminate Hhi.
  - destruct (f32_ltb x (f32_of_Z 0)) eqn:Hlo; [ | reflexivity].
    destruct x; try reflexivity. discriminate Hlo.
Qed.

Lemma clamp_output_range (x : float) :
  is_nan x = false ->
  f32_leb (f32_of_Z 0) (clamp_output x) = true /\
  f32_leb (clamp_output x) (f32_of_Z 30000) = true.
Proof.
  intros Hx. unfold clamp_output.
  destruct (f32_ltb (f32_of_Z 30000) x) eqn:Hhi; [split; reflexivity |].
  destruct (f32_ltb x (f32_of_Z 0)) eqn:Hlo; [split; reflexivity |].
  split; apply f32_ltb_false_leb; auto.
Qed.

Lemma clamp_output_valid (x : float) :
  valid_binary prec32 emax32 x = true ->
  valid_binary prec32 emax32 (clamp_output x) = true.
Proof.
  intros Hx. unfold clamp_output.
  destruct (f32_ltb (f32_of_Z 30000) x); [reflexivity |].
  destruct (f32_ltb x (f32_of_Z 0)); [reflexivity | exact Hx].
Qed.

Lemma clamp_integral_not_above (x : float) :
  f32_ltb (f32_of_Z 2000000) (clamp_integral x) = false.
Proof.
  unfold clamp_integral.
  destruct (f32_ltb (f32_of_Z 2000000) x) eqn:H; [reflexivity | exact H].
Qed.

(** Order of two positive finite numbers, read on exponent and mantissa. *)
Lemma f32_leb_finite (mx : positive) (ex : Z) (my : positive) (ey : Z) :
  f32_leb (S754_finite false mx ex) (S754_finite false my ey) = true ->
  ex < ey \/ (ex = ey /\ Zpos mx <= Zpos my).
Proof.
  unfold f32_leb, SFleb, SFcompare.
  change (Pos.compare_cont Eq mx my) with (Pos.compare mx my).
  destruct (Z.compare_spec ex ey) as [E | L | G]; intros H.
  - right. split; [exact E |].
    destruct (Pos.compare_spec mx my) as [E' | L' | G']; try discriminate H.
    + subst. apply Z.le_refl.
    + apply Z.lt_le_incl, Pos2Z.pos_lt_pos, L'.
  - left. exact L.
  - discriminate H.
Qed.

(** Dividing a well-formed number of [0, 30000] by 30 gives a number
    whose integral part lies in [0, 1000]. *)
Lemma f32_div_30_trunc (x : float) :
  valid_binary prec32 emax32 x = true ->
  f32_leb (f32_of_Z 0) x = true ->
  f32_leb x (f32_of_Z 30000) = true ->
  trunc_within 1000 (f32_div x (f32_of_Z 30)).
Proof.
  intros Hv Hlo Hhi.
  destruct x as [s | s | | s mx ex].
  - exists 0. split; [reflexivity | lia].
  - destruct s; discriminate.
  - discriminate.
  - destruct s; [discriminate Hlo |].
    unfold valid_binary, bounded in Hv.
    apply andb_prop in Hv. destruct Hv as [Hcan _].
    rewrite f32_of_Z_30000 in Hhi.
    apply f32_leb_finite in Hhi.
    destruct Hhi as [L | [E Hm]]; [apply f32_div_30_trunc_finite; auto |].
    destruct (Z.eq_dec (Zpos mx) (Zpos 15360000)) as [E' | N'].
    + injection E' as ->. subst ex.
      exists 1000. split; [vm_compute; reflexivity | lia].
    + apply f32_div_30_trunc_finite; [exact Hcan |].
      right. split; [exact E |].
      apply Z.le_neq. split; [exact Hm | exact N'].
Qed.

(** ** Properties of the commutation handler *)

Section Commutation.
Context {T : Target}.

Lemma halls_record_hall_event (st : State) :
  halls (record_hall_event st) = halls st.
Proof. reflexivity. Qed.

Lemma gates_record_hall_event (st : State) :
  gates (record_hall_event st) = gates st.
Proof. reflexivity. Qed.

Lemma leds_record_hall_event (st : State) :
  leds (record_hall_event st) = leds st.
Proof. reflexivity. Qed.

(** Both tables, read pattern by pattern. *)
Lemma commutate_CW_gates (torque : Z) (st : State) :
  gates (commutate_CW torque st) =
  match HALL1 (halls st), HALL2 (halls st), HALL3 (halls st) with
  | true, true, false => mkGates 0 0 torque 0 0 torque
  | false, true, false => mkGates 0 torque torque 0 0 0
  | false, true, true => mkGates 0 torque 0 0 torque 0
  | false, false, true => mkGates 0 0 0 torque torque 0
  | true, false, true => mkGates torque 0 0 torque 0 0
  | true, false, false => mkGates torque 0 0 0 0 torque
  | _, _, _ => gates st
  end.
Proof.
  unfold commutate_CW.
  destruct (HALL1 (halls st)), (HALL2 (halls st)), (HALL3 (halls st));
    reflexivity.
Qed.

Lemma commutate_CCW_gates (torque : Z) (st : State) :
  gates (commutate_CCW torque st) =
  match HALL1 (halls st), HALL2 (halls st), HALL3 (halls st) with
  | true, true, false => mkGates 0 0 0 torque torque 0
  | false, true, false => mkGates torque 0 0 torque 0 0
  | false, true, true => mkGates torque 0 0 0 0 torque
  | false, false, true => mkGates 0 0 torque 0 0 torque
  | true, false, true => mkGates 0 torque torque 0 0 0
  | true, false, false => mkGates 0 torque 0 0 torque 0
  | _, _, _ => gates st
  end.
Proof.
  unfold commutate_CCW.
  destruct (HALL1 (halls st)), (HALL2 (halls st)), (HALL3 (halls st));
    reflexivity.
Qed.

Lemma TrapUpdate_CW (torque : Z) (st : State) :
  TrapUpdate torque CW st = commutate_CW torque (record_hall_event st).
Proof. unfold TrapUpdate. now rewrite Z.eqb_refl. Qed.

Lemma TrapUpdate_CCW (torque : Z) (st : State) :
  CW <> CCW ->
  TrapUpdate torque CCW st = commutate_CCW torque (record_hall_event st).
Proof.
  intros Hne. unfold TrapUpdate.
  destruct (Z.eqb_spec CCW CW) as [E | _]; [congruence |].
  now rewrite Z.eqb_refl.
Qed.

(** A direction that is [CW] or [CCW] selects one of the two tables. *)
Lemma TrapUpdate_table (torque direction : Z) (st : State) :
  direction = CW \/ direction = CCW ->
  TrapUpdate torque direction st = commutate_CW torque (record_hall_event st) \/
  TrapUpdate torque direction st = commutate_CCW torque (record_hall_event st).
Proof.
  intros Hd. unfold TrapUpdate.
  destruct (Z.eqb_spec direction CW) as [E | N]; [now left |].
  destruct Hd as [-> | ->]; [congruence |].
  rewrite Z.eqb_refl. now right.
Qed.

Ltac check_pair :=
  (split; [discriminate |]);
  (split; [reflexivity |]);
  (split; [reflexivity |]);
  split; (intros [ | | ] Hp; first [reflexivity | now contradiction Hp]).

Ltac pick_pair :=
  first
    [ solve [exists PhaseA, PhaseB; check_pair]
    | solve [exists PhaseA, PhaseC; check_pair]
    | solve [exists PhaseB, PhaseA; check_pair]
    | solve [exists PhaseB, PhaseC; check_pair]
    | solve [exists PhaseC, PhaseA; check_pair]
    | solve [exists PhaseC, PhaseB; check_pair] ].

Lemma table_pattern_energised (torque : Z) (g : Gates) :
  In g [ mkGates 0 0 torque 0 0 torque; mkGates 0 torque torque 0 0 0;
         mkGates 0 torque 0 0 torque 0; mkGates 0 0 0 torque torque 0;
         mkGates torque 0 0 torque 0 0; mkGates torque 0 0 0 0 torque ] ->
  one_pair_energised torque g /\ no_shoot_through g.
Proof.
  intros Hin. simpl in Hin.
  repeat (destruct Hin as [<- | Hin]); try contradiction;
    (split; [unfold one_pair_energised; pick_pair |]);
    intros [ | | ] [Hh Hl]; simpl in Hh, Hl; congruence.
Qed.

(** C1. With one of the six valid Hall patterns and a direction that is
    CW or CCW, [TrapUpdate] energises exactly one phase pair: one high-side
    gate and one low-side gate of two different phases carry the torque,
    the other four gates are 0, and no phase has both of its gates
    nonzero. *)
Theorem TrapUpdate_one_pair_no_shoot_through
    (torque direction : Z) (st : State) :
  valid_hall (halls st) = true ->
  direction = CW \/ direction = CCW ->
  one_pair_energised torque (gates (TrapUpdate torque direction st)) /\
  no_shoot_through (gates (TrapUpdate torque direction st)).
Proof.
  intros Hv Hd.
  apply table_pattern_energised.
  destruct (TrapUpdate_table torque direction st Hd) as [-> | ->];
    [rewrite commutate_CW_gates | rewrite commutate_CCW_gates];
    rewrite halls_record_hall_event;
    unfold valid_hall in Hv;
    destruct (HALL1 (halls st)), (HALL2 (halls st)), (HALL3 (halls st));
    try discriminate Hv; simpl; tauto.
Qed.

(** C5. For each valid Hall pattern the CCW table is the CW table with
    the conduction reversed: the gate that carries the torque on the high
    side of a phase under CW carries it on the low side of that phase
    under CCW, and conversely, with the same torque. *)
Theorem TrapUpdate_CCW_mirrors_CW (torque : Z) (st : State) (p : Phase) :
  CW <> CCW ->
  valid_hall (halls st) = true ->
  high_side (gates (TrapUpdate torque CCW st)) p =
    low_side (gates (TrapUpdate torque CW st)) p /\
  low_side (gates (TrapUpdate torque CCW st)) p =
    high_side (gates (TrapUpdate torque CW st)) p.
Proof.
  intros Hne Hv.
  rewrite TrapUpdate_CW, (TrapUpdate_CCW _ _ Hne).
  rewrite commutate_CW_gates, commutate_CCW_gates, halls_record_hall_event.
  unfold valid_hall in Hv.
  destruct (HALL1 (halls st)), (HALL2 (halls st)), (HALL3 (halls st));
    try discriminate Hv; destruct p; split; reflexivity.
Qed.

(** The table branches do not touch what [record_hall_event] wrote. *)
Lemma commutate_frame (f : Z -> State -> State) (torque : Z) (st : State) :
  f = commutate_CW \/ f = commutate_CCW ->
  motorInfo (f torque st) = motorInfo st /\
  timerCurr (f torque st) = timerCurr st /\
  timer (f torque st) = timer st /\
  TMR2 (f torque st) = TMR2 st /\
  TMR3HLD (f torque st) = TMR3HLD st /\
  changeState (f torque st) = changeState st.
Proof.
  intros [-> | ->]; [unfold commutate_CW | unfold commutate_CCW];
    destruct (HALL1 (halls st)), (HALL2 (halls st)), (HALL3 (halls st));
    simpl; repeat split.
Qed.

Lemma commutate_invalid (f : Z -> State -> State) (torque : Z) (st : State) :
  f = commutate_CW \/ f = commutate_CCW ->
  valid_hall (halls st) = false ->
  f torque st = st.
Proof.
  intros [-> | ->] Hv; [unfold commutate_CW | unfold commutate_CCW];
    unfold valid_hall in Hv;
    destruct (HALL1 (halls st)), (HALL2 (halls st)), (HALL3 (halls st));
    try discriminate Hv; reflexivity.
Qed.

(** C9. With the all-zero or the all-one Hall pattern [TrapUpdate], in
    either direction, leaves the six duty cycles and the three LEDs as
    they were, and still counts the event: [hallCount] goes up by one
    (modulo its width), the timer snapshot is added to [timer] (modulo
    2^32), both timer registers are cleared and [changeState] is 1. *)
Theorem TrapUpdate_invalid_pattern_holds_outputs
    (torque direction : Z) (st : State) :
  valid_hall (halls st) = false ->
  direction = CW \/ direction = CCW ->
  let st' := TrapUpdate torque direction st in
  gates st' = gates st /\
  leds st' = leds st /\
  hallCount (motorInfo st') =
    uwrap hallCount_bits (hallCount (motorInfo st) + 1) /\
  timerCurr st' = timer_snapshot st /\
  timer st' = uint32 (timer st + timer_snapshot st) /\
  TMR2 st' = 0 /\
  TMR3HLD st' = 0 /\
  changeState st' = 1.
Proof.
  intros Hv Hd st'. subst st'.
  assert (E : TrapUpdate torque direction st = record_hall_event st).
  { destruct (TrapUpdate_table torque direction st Hd) as [-> | ->];
      apply commutate_invalid; auto. }
  rewrite E. repeat split.
Qed.

(** C10. The interrupt routine always runs the CW table, with the torque
    stored by the last control step; whatever the value of [CCW], the CCW
    table is not consulted. *)
Theorem CNInterrupt_runs_CW_table (st : State) :
  _CNInterrupt st =
    set_CNIF 0 (commutate_CW (commandedTorque st) (record_hall_event st)) /\
  _CNInterrupt st = set_CNIF 0 (TrapUpdate (commandedTorque st) CW st).
Proof.
  unfold _CNInterrupt. rewrite TrapUpdate_CW. split; reflexivity.
Qed.

End Commutation.

(** ** Properties of the speed loop *)

Section SpeedLoop.
Context {T : Target}.

(** What a control computation leaves behind, field by field. *)
Lemma SpeedControlStep_runs (speed direction update : Z) (st : State) :
  update <> 0 ->
  changeState st <> 0 ->
  hallCount (motorInfo st) <> 0 ->
  timer st / hallCount (motorInfo st) <> 0 ->
  let v := 52500000 / (timer st / hallCount (motorInfo st)) in
  let p := PIDs st in
  let i' := clamp_integral (f32_add (integral p) (err p)) in
  let o' := clamp_output (output_sum (Kp p) (Ki p) (err p) i') in
  SpeedControlStep speed direction update st =
    Some
      {| motorInfo := mkMotorInfo (int32 v) 0 (lastHallState (motorInfo st));
         PIDs :=
           mkPID (Kp p) (Ki p) (Kd p)
             (f32_of_Z (speed - int32 v))
             (f32_sub (err p) (f32_of_Z (speed - int32 v)))
             o' i'
             (f32_of_Z (speed - int32 v));
         timerCurr := 0;
         timer := 0;
         commandedTorque := f32_to_uint16 (f32_div o' (f32_of_Z 30));
         changeState := 0;
         TMR2 := TMR2 st;
         TMR3HLD := TMR3HLD st;
         gates := gates st;
         leds := leds st;
         halls := halls st;
         CNIF := CNIF st;
         uart2 := uart2 st ++ [mkDiag v o'];
         speedPID := speedPID st |}.
Proof.
  intros Hu Hc Hh Ht.
  unfold SpeedControlStep, udiv.
  apply Z.eqb_neq in Hu, Hc, Hh, Ht.
  rewrite Hu, Hc. simpl. rewrite Hh. simpl. rewrite Ht. simpl.
  unfold clamp_integral, clamp_output, output_sum. simpl.
  destruct (f32_ltb (f32_of_Z 2000000)
              (f32_add (integral (PIDs st)) (err (PIDs st)))); simpl;
    repeat match goal with
           | |- context [if ?c then _ else _] => destruct c; simpl
           end;
    reflexivity.
Qed.

(** The step stops at the first division when the divisor is zero. *)
Lemma SpeedControlStep_divides (speed direction update : Z) (st : State) :
  update <> 0 ->
  changeState st <> 0 ->
  hallCount (motorInfo st) = 0 \/ timer st / hallCount (motorInfo st) = 0 ->
  SpeedControlStep speed direction update st = None.
Proof.
  intros Hu Hc Hz.
  unfold SpeedControlStep, udiv.
  apply Z.eqb_neq in Hu, Hc. rewrite Hu, Hc.
  destruct (Z.eqb_spec (hallCount (motorInfo st)) 0) as [E | N];
    [reflexivity |].
  destruct Hz as [Hz | Hz]; [contradiction |].
  simpl. now rewrite Hz.
Qed.

(** The two guards of the step. *)
Lemma SpeedControlStep_skips (speed direction update : Z) (st : State) :
  update = 0 \/ changeState st = 0 ->
  SpeedControlStep speed direction update st = Some st.
Proof.
  intros [-> | Hc]; unfold SpeedControlStep; [reflexivity |].
  rewrite Hc. now destruct (update =? 0).
Qed.

(** C8. With [update] zero or [changeState] zero the call changes
    nothing: the whole state, and with it [motorInfo], the PID state,
    [commandedTorque], [timer], [timerCurr], [changeState] and the UART
    log, is returned as it was. *)
Theorem SpeedControlStep_noop (speed direction update : Z) (st : State) :
  update = 0 \/ changeState st = 0 ->
  SpeedControlStep speed direction update st = Some st.
Proof.
  intros Hflag. destruct Hflag as [Hu | Hc].
  - apply SpeedControlStep_skips. left. exact Hu.
  - apply SpeedControlStep_skips. right. exact Hc.
Qed.

(** The converse: a call that is not a no-op had both flags set. *)
Lemma SpeedControlStep_runs_only_when_flagged
    (speed direction update : Z) (st : State) :
  SpeedControlStep speed direction update st <> Some st ->
  update <> 0 /\ changeState st <> 0.
Proof.
  intros Hne. split; intros E; apply Hne, SpeedControlStep_skips; auto.
Qed.

Lemma int32_small (v : Z) : 0 <= v <= 52500000 -> int32 v = v.
Proof.
  intros Hv. unfold int32, swrap.
  change (2 ^ (32 - 1)) with 2147483648. change (2 ^ 32) with 4294967296.
  rewrite Z.mod_small; lia.
Qed.

Lemma speed_quotient_range (q : Z) : 0 < q -> 0 <= 52500000 / q <= 52500000.
Proof.
  intros Hq. split.
  - apply Z.div_pos; lia.
  - apply Z.div_le_upper_bound; nia.
Qed.

(** C7. When a control computation runs with a positive transition
    count and a positive quotient of ticks by transitions, the speed
    estimate stored is 52,500,000 divided by that quotient. *)
Theorem SpeedControlStep_speed_estimate
    (speed direction update : Z) (st : State) :
  update <> 0 ->
  changeState st <> 0 ->
  0 < hallCount (motorInfo st) ->
  0 < timer st / hallCount (motorInfo st) ->
  exists st',
    SpeedControlStep speed direction update st = Some st' /\
    currentSpeed (motorInfo st') =
      52500000 / (timer st / hallCount (motorInfo st)).
Proof.
  intros Hu Hc Hh Ht.
  eexists. split; [apply SpeedControlStep_runs; lia |].
  simpl. apply int32_small, speed_quotient_range, Ht.
Qed.

(** C4, as the code has it: a control computation with a transition
    count of zero divides by zero, so the step has no result. *)
Theorem SpeedControlStep_zero_hallCount_divides_by_zero
    (speed direction update : Z) (st : State) :
  update <> 0 ->
  changeState st <> 0 ->
  hallCount (motorInfo st) = 0 ->
  SpeedControlStep speed direction update st = None.
Proof.
  intros Hu Hc Hz. apply SpeedControlStep_divides; auto.
Qed.

(** A control computation that returns has not divided by zero. *)
Lemma SpeedControlStep_returns (speed direction update : Z) (st st' : State) :
  update <> 0 ->
  changeState st <> 0 ->
  SpeedControlStep speed direction update st = Some st' ->
  hallCount (motorInfo st) <> 0 /\
  timer st / hallCount (motorInfo st) <> 0.
Proof.
  intros Hu Hc Hrun.
  split; intros E;
    rewrite SpeedControlStep_divides in Hrun by auto; discriminate Hrun.
Qed.

(** The PID record after a control computation that returns. *)
Lemma SpeedControlStep_PIDs (speed direction update : Z) (st st' : State) :
  update <> 0 ->
  changeState st <> 0 ->
  SpeedControlStep speed direction update st = Some st' ->
  let p := PIDs st in
  let i' := clamp_integral (f32_add (integral p) (err p)) in
  let o' := clamp_output (output_sum (Kp p) (Ki p) (err p) i') in
  integral (PIDs st') = i' /\
  output (PIDs st') = o' /\
  Kd (PIDs st') = Kd p /\
  commandedTorque st' = f32_to_uint16 (f32_div o' (f32_of_Z 30)).
Proof.
  intros Hu Hc Hrun.
  destruct (SpeedControlStep_returns _ _ _ _ _ Hu Hc Hrun) as [Hh Ht].
  rewrite (SpeedControlStep_runs speed direction update st Hu Hc Hh Ht) in Hrun.
  injection Hrun as <-. repeat split.
Qed.

(** C2, as the code has it.  After a control computation the integral
    is the old integral plus the old error, replaced by 2,000,000 when
    the sum is greater: it is never greater than 2,000,000, and it is at
    most 2,000,000 whenever it is a number.  Nothing bounds it from
    below. *)
Theorem SpeedControlStep_integral_upper_bound
    (speed direction update : Z) (st st' : State) :
  update <> 0 ->
  changeState st <> 0 ->
  SpeedControlStep speed direction update st = Some st' ->
  integral (PIDs st') =
    clamp_integral (f32_add (integral (PIDs st)) (err (PIDs st))) /\
  f32_ltb (f32_of_Z 2000000) (integral (PIDs st')) = false /\
  (is_nan (integral (PIDs st')) = false ->
   f32_leb (integral (PIDs st')) (f32_of_Z 2000000) = true).
Proof.
  intros Hu Hc Hrun.
  destruct (SpeedControlStep_PIDs _ _ _ _ _ Hu Hc Hrun) as (Hi & _).
  rewrite Hi. split; [reflexivity |].
  split; [apply clamp_integral_not_above |].
  intros Hn. apply f32_ltb_false_leb;
    [reflexivity | exact Hn | apply clamp_integral_not_above].
Qed.

(** C3, as the code has it.  The statement terminator stands after the
    Ki term: the value assigned to [PIDs.output] is the sum of the Kp
    term and the Ki term (with the integral just updated), which is then
    clamped; only the Kd term is cut off, so the step does not depend on
    [Kd]. *)
Theorem SpeedControlStep_output_is_P_plus_I
    (speed direction update : Z) (st st' : State) :
  update <> 0 ->
  changeState st <> 0 ->
  SpeedControlStep speed direction update st = Some st' ->
  output (PIDs st') =
    clamp_output
      (to_f32
         (dbl_add
            (to_double (f32_mul (Kp (PIDs st)) (err (PIDs st))))
            (dbl_mul
               (to_double (f32_mul (Ki (PIDs st)) (integral (PIDs st'))))
               dbl_001))) /\
  forall kd : float,
    SpeedControlStep speed direction update (set_PIDs (set_Kd kd (PIDs st)) st) =
      Some (set_PIDs (set_Kd kd (PIDs st')) st').
Proof.
  intros Hu Hc Hrun.
  destruct (SpeedControlStep_PIDs _ _ _ _ _ Hu Hc Hrun) as (Hi & Ho & _).
  split; [rewrite Ho, Hi; reflexivity |].
  intros kd.
  destruct (SpeedControlStep_returns _ _ _ _ _ Hu Hc Hrun) as [Hh Ht].
  rewrite (SpeedControlStep_runs speed direction update st Hu Hc Hh Ht) in Hrun.
  injection Hrun as <-.
  apply (SpeedControlStep_runs speed direction update
           (set_PIDs (set_Kd kd (PIDs st)) st) Hu Hc Hh Ht).
Qed.

(** C6, as the code has it.  After a control computation the output is
    either NaN or a number of [0, 30000]; when it is a number, the
    commanded torque lies in [0, 1000]. *)
Theorem SpeedControlStep_output_and_torque_range
    (speed direction update : Z) (st st' : State) :
  update <> 0 ->
  changeState st <> 0 ->
  SpeedControlStep speed direction update st = Some st' ->
  is_nan (output (PIDs st')) = false ->
  f32_leb (f32_of_Z 0) (output (PIDs st')) = true /\
  f32_leb (output (PIDs st')) (f32_of_Z 30000) = true /\
  0 <= commandedTorque st' <= 1000.
Proof.
  intros Hu Hc Hrun Hn.
  destruct (SpeedControlStep_PIDs _ _ _ _ _ Hu Hc Hrun) as (_ & Ho & _ & Ht).
  cbv zeta in Ho, Ht.
  set (sum := output_sum (Kp (PIDs st)) (Ki (PIDs st)) (err (PIDs st))
                (clamp_integral (f32_add (integral (PIDs st)) (err (PIDs st)))))
    in *.
  rewrite Ho in Hn |- *. rewrite clamp_output_nan in Hn.
  destruct (clamp_output_range sum Hn) as [Hlo Hhi].
  split; [exact Hlo |]. split; [exact Hhi |].
  assert (Hv : valid_binary prec32 emax32 (clamp_output sum) = true)
    by (apply clamp_output_valid, to_f32_valid).
  destruct (f32_div_30_trunc _ Hv Hlo Hhi) as (z & Hz & Hr).
  rewrite Ht. unfold f32_to_uint16. rewrite Hz.
  destruct (Z.leb_spec 0 z); [ | lia].
  destruct (Z.leb_spec z 65535); [ | lia].
  simpl. exact Hr.
Qed.

End SpeedLoop.

(** ** The properties at concrete inputs *)

(** C1 at the Hall pattern 110, direction CW, torque 300. *)
Lemma TrapUpdate_one_pair_witness :
  valid_hall (halls (power_on hall_110)) = true /\
  (0 = CW (Target := xc16) \/ 0 = CCW (Target := xc16)) /\
  one_pair_energised 300
    (gates (TrapUpdate (T := xc16) 300 0 (power_on hall_110))) /\
  no_shoot_through
    (gates (TrapUpdate (T := xc16) 300 0 (power_on hall_110))).
Proof.
  split; [reflexivity |]. split; [left; reflexivity |].
  apply (@TrapUpdate_one_pair_no_shoot_through xc16 300 0 (power_on hall_110)).
  - reflexivity.
  - left. reflexivity.
Defined.

(** C5 at the Hall pattern 110, torque 300, phase B, with CW = 0 and
    CCW = 1. *)
Lemma TrapUpdate_mirror_witness :
  CW (Target := xc16) <> CCW (Target := xc16) /\
  valid_hall (halls (power_on hall_110)) = true /\
  high_side (gates (TrapUpdate (T := xc16) 300 1 (power_on hall_110))) PhaseB =
    low_side (gates (TrapUpdate (T := xc16) 300 0 (power_on hall_110))) PhaseB /\
  low_side (gates (TrapUpdate (T := xc16) 300 1 (power_on hall_110))) PhaseB =
    high_side (gates (TrapUpdate (T := xc16) 300 0 (power_on hall_110))) PhaseB.
Proof.
  split; [simpl; lia |]. split; [reflexivity |].
  apply (@TrapUpdate_CCW_mirrors_CW xc16 300 (power_on hall_110) PhaseB).
  - simpl. lia.
  - reflexivity.
Defined.

(** C9 at the Hall pattern 000, direction CCW. *)
Lemma TrapUpdate_invalid_pattern_witness :
  valid_hall (halls (power_on hall_000)) = false /\
  (1 = CW (Target := xc16) \/ 1 = CCW (Target := xc16)) /\
  gates (TrapUpdate (T := xc16) 300 1 (power_on hall_000)) =
    gates (power_on hall_000) /\
  leds (TrapUpdate (T := xc16) 300 1 (power_on hall_000)) =
    leds (power_on hall_000) /\
  hallCount (motorInfo (TrapUpdate (T := xc16) 300 1 (power_on hall_000))) = 1 /\
  changeState (TrapUpdate (T := xc16) 300 1 (power_on hall_000)) = 1.
Proof.
  split; [reflexivity |]. split; [right; reflexivity |].
  pose proof (@TrapUpdate_invalid_pattern_holds_outputs xc16 300 1
                (power_on hall_000) eq_refl (or_intror eq_refl)) as H.
  cbv zeta in H.
  destruct H as (Hg & Hl & Hh & _ & _ & _ & _ & Hc).
  split; [exact Hg |]. split; [exact Hl |]. split; [exact Hh | exact Hc].
Defined.

(** C8 with [update] zero. *)
Lemma SpeedControlStep_noop_witness :
  (0 = 0 \/ changeState one_transition = 0) /\
  SpeedControlStep (T := xc16) 1000 0 0 one_transition = Some one_transition.
Proof.
  split; [left; reflexivity |].
  apply (@SpeedControlStep_noop xc16 1000 0 0 one_transition).
  left. reflexivity.
Defined.

(** C7 at 52500 ticks for one transition: the estimate is 1000. *)
Lemma SpeedControlStep_speed_estimate_witness :
  1 <> 0 /\
  changeState one_transition <> 0 /\
  0 < hallCount (motorInfo one_transition) /\
  0 < timer one_transition / hallCount (motorInfo one_transition) /\
  exists st',
    SpeedControlStep (T := xc16) 1000 0 1 one_transition = Some st' /\
    currentSpeed (motorInfo st') = 1000.
Proof.
  split; [lia |]. split; [vm_compute; lia |].
  split; [vm_compute; reflexivity |]. split; [vm_compute; reflexivity |].
  apply (@SpeedControlStep_speed_estimate xc16 1000 0 1 one_transition).
  - lia.
  - vm_compute. lia.
  - vm_compute. reflexivity.
  - vm_compute. reflexivity.
Defined.

(** C4: the step that follows a Hall transition and a (re-)initialisation
    divides by zero. *)
Lemma SpeedControlStep_zero_hallCount_witness :
  1 <> 0 /\
  changeState transition_then_init <> 0 /\
  hallCount (motorInfo transition_then_init) = 0 /\
  SpeedControlStep (T := xc16) 1000 0 1 transition_then_init = None.
Proof.
  split; [lia |]. split; [vm_compute; lia |]. split; [reflexivity |].
  apply (@SpeedControlStep_zero_hallCount_divides_by_zero xc16 1000 0 1
           transition_then_init).
  - lia.
  - vm_compute. lia.
  - reflexivity.
Defined.

(** C2 at the second control step with Kp = Ki = 1: the integral takes
    the error of the first step, 500. *)
Lemma SpeedControlStep_integral_witness :
  exists st',
    1 <> 0 /\
    changeState second_transition <> 0 /\
    SpeedControlStep (T := xc16) 1500 0 1 second_transition = Some st' /\
    integral (PIDs st') = f32_of_Z 500 /\
    f32_ltb (f32_of_Z 2000000) (integral (PIDs st')) = false.
Proof.
  eexists.
  split; [lia |]. split; [vm_compute; lia |].
  split; [vm_compute; reflexivity |].
  split; [vm_compute; reflexivity |].
  eapply (@SpeedControlStep_integral_upper_bound xc16 1500 0 1 second_transition).
  - lia.
  - vm_compute. lia.
  - vm_compute. reflexivity.
Defined.

(** C2 refuted as stated: two control steps that ask for 500 from a rotor
    turning at 1000 leave the integral at -500, below 0. *)
Lemma integral_goes_below_zero :
  exists st1 st2,
    control_round (T := xc16) 52500 500 (started f32_zero f32_zero f32_zero)
      = Some st1 /\
    control_round (T := xc16) 52500 500 st1 = Some st2 /\
    integral (PIDs st2) = f32_of_Z (-500) /\
    f32_ltb (integral (PIDs st2)) (f32_of_Z 0) = true /\
    f32_leb (f32_of_Z 0) (integral (PIDs st2)) = false.
Proof.
  eexists. eexists.
  split; [vm_compute; reflexivity |].
  split; [vm_compute; reflexivity |].
  split; [vm_compute; reflexivity |].
  split; vm_compute; reflexivity.
Qed.

(** C3 at the second control step with Kp = Ki = 1: the output is 500.5
    whatever [Kd] is. *)
Lemma SpeedControlStep_output_witness :
  exists st',
    1 <> 0 /\
    changeState second_transition <> 0 /\
    SpeedControlStep (T := xc16) 1500 0 1 second_transition = Some st' /\
    output (PIDs st') = S754_finite false 16400384 (-15) /\
    forall kd : float,
      SpeedControlStep (T := xc16) 1500 0 1
        (set_PIDs (set_Kd kd (PIDs second_transition)) second_transition) =
        Some (set_PIDs (set_Kd kd (PIDs st')) st').
Proof.
  eexists.
  split; [lia |]. split; [vm_compute; lia |].
  split; [vm_compute; reflexivity |].
  split; [vm_compute; reflexivity |].
  eapply (@SpeedControlStep_output_is_P_plus_I xc16 1500 0 1 second_transition).
  - lia.
  - vm_compute. lia.
  - vm_compute. reflexivity.
Defined.

(** C3 refuted as stated: with Kp = Ki = 1 the second control step that
    asks for 1500 from a rotor turning at 1000 has an error of 500 and an
    integral of 500; the output is 500.5, the Kp term alone is 500.  This
    holds with a 32-bit and with a 64-bit [double]. *)
Lemma output_includes_Ki_term :
  (exists st1 st2,
     control_round (T := xc16) 52500 1500 (started f32_one f32_one f32_zero)
       = Some st1 /\
     let st := hall_transition (T := xc16) 52500 (halls st1) st1 in
     SpeedControlStep (T := xc16) 1500 0 1 st = Some st2 /\
     clamp_output (f32_mul (Kp (PIDs st)) (err (PIDs st))) = f32_of_Z 500 /\
     output (PIDs st2) = S754_finite false 16400384 (-15) /\
     output (PIDs st2) <> clamp_output (f32_mul (Kp (PIDs st)) (err (PIDs st)))) /\
  (exists st1 st2,
     control_round (T := xc16_long_double) 52500 1500
       (started f32_one f32_one f32_zero) = Some st1 /\
     let st := hall_transition (T := xc16_long_double) 52500 (halls st1) st1 in
     SpeedControlStep (T := xc16_long_double) 1500 0 1 st = Some st2 /\
     clamp_output (f32_mul (Kp (PIDs st)) (err (PIDs st))) = f32_of_Z 500 /\
     output (PIDs st2) = S754_finite false 16400384 (-15) /\
     output (PIDs st2) <> clamp_output (f32_mul (Kp (PIDs st)) (err (PIDs st)))).
Proof.
  split; eexists; eexists;
    (split; [vm_compute; reflexivity |]); cbv zeta;
    (split; [vm_compute; reflexivity |]);
    (split; [vm_compute; reflexivity |]);
    (split; [vm_compute; reflexivity |]);
    vm_compute; discriminate.
Qed.

(** C6 at the second control step with Kp = Ki = 1: the output is 500.5
    and the torque is 16. *)
Lemma SpeedControlStep_range_witness :
  exists st',
    1 <> 0 /\
    changeState second_transition <> 0 /\
    SpeedControlStep (T := xc16) 1500 0 1 second_transition = Some st' /\
    is_nan (output (PIDs st')) = false /\
    output (PIDs st') = S754_finite false 16400384 (-15) /\
    commandedTorque st' = 16 /\
    f32_leb (f32_of_Z 0) (output (PIDs st')) = true /\
    f32_leb (output (PIDs st')) (f32_of_Z 30000) = true /\
    0 <= commandedTorque st' <= 1000.
Proof.
  eexists.
  split; [lia |]. split; [vm_compute; lia |].
  split; [vm_compute; reflexivity |].
  split; [vm_compute; reflexivity |].
  split; [vm_compute; reflexivity |].
  split; [vm_compute; reflexivity |].
  eapply (@SpeedControlStep_output_and_torque_range xc16 1500 0 1
            second_transition).
  - lia.
  - vm_compute. lia.
  - vm_compute. reflexivity.
  - vm_compute. reflexivity.
Defined.

(** C6 refuted as stated: with an infinite Kp and an error of zero the Kp
    term is NaN, no comparison of the clamp holds, and the output stays
    NaN: it is not in [0, 30000]. *)
Lemma output_escapes_clamp_as_NaN :
  exists st',
    control_round (T := xc16) 52500 1000 (started f32_infinity f32_zero f32_zero)
      = Some st' /\
    output (PIDs st') = S754_nan /\
    f32_leb (f32_of_Z 0) (output (PIDs st')) = false /\
    f32_leb (output (PIDs st')) (f32_of_Z 30000) = false.
Proof.
  eexists.
  split; [vm_compute; reflexivity |].
  split; [vm_compute; reflexivity |].
  split; vm_compute; reflexivity.
Qed.

(** The same escape with finite gains: Kp = Ki = the largest [float].  The
    third control step has a negative error and a positive integral, the
    Kp term overflows to minus infinity and the Ki term to plus infinity,
    and their sum is NaN, with a 32-bit and with a 64-bit [double]. *)
Lemma output_NaN_with_finite_gains :
  (exists st1 st2 st3,
     control_round (T := xc16) 52500 2000 (started f32_max f32_max f32_zero)
       = Some st1 /\
     control_round (T := xc16) 52500 500 st1 = Some st2 /\
     control_round (T := xc16) 52500 500 st2 = Some st3 /\
     output (PIDs st3) = S754_nan) /\
  (exists st1 st2 st3,
     control_round (T := xc16_long_double) 52500 2000
       (started f32_max f32_max f32_zero) = Some st1 /\
     control_round (T := xc16_long_double) 52500 500 st1 = Some st2 /\
     control_round (T := xc16_long_double) 52500 500 st2 = Some st3 /\
     output (PIDs st3) = S754_nan).
Proof.
  split; do 3 eexists;
    (split; [vm_compute; reflexivity |]);
    (split; [vm_compute; reflexivity |]);
    split; vm_compute; reflexivity.
Qed.

(** ** Further properties of the commutation handler *)

Section MoreCommutation.
Context {T : Target}.

(** The fields written by the first part of [TrapUpdate]. *)
Lemma record_hall_event_fields (st : State) :
  hallCount (motorInfo (record_hall_event st)) =
    uwrap hallCount_bits (hallCount (motorInfo st) + 1) /\
  timerCurr (record_hall_event st) = timer_snapshot st /\
  timer (record_hall_event st) = uint32 (timer st + timer_snapshot st) /\
  TMR2 (record_hall_event st) = 0 /\
  TMR3HLD (record_hall_event st) = 0 /\
  changeState (record_hall_event st) = 1 /\
  commandedTorque (record_hall_event st) = commandedTorque st /\
  PIDs (record_hall_event st) = PIDs st.
Proof. repeat split. Qed.

(** X1. A direction that is neither CW nor CCW selects no table. *)
Theorem TrapUpdate_unknown_direction (torque direction : Z) (st : State) :
  direction <> CW ->
  direction <> CCW ->
  TrapUpdate torque direction st = record_hall_event st /\
  gates (TrapUpdate torque direction st) = gates st /\
  leds (TrapUpdate torque direction st) = leds st /\
  changeState (TrapUpdate torque direction st) = 1.
Proof.
  intros Hcw Hccw.
  assert (E : TrapUpdate torque direction st = record_hall_event st).
  { unfold TrapUpdate.
    destruct (Z.eqb_spec direction CW) as [? | _]; [contradiction |].
    destruct (Z.eqb_spec direction CCW) as [? | _]; [contradiction |].
    reflexivity. }
  rewrite E. repeat split.
Qed.

Lemma commutate_leds (f : Z -> State -> State) (torque : Z) (st : State) :
  f = commutate_CW \/ f = commutate_CCW ->
  valid_hall (halls st) = true ->
  leds (f torque st) = hall_leds (halls st).
Proof.
  intros [-> | ->] Hv; [unfold commutate_CW | unfold commutate_CCW];
    unfold valid_hall in Hv; unfold hall_leds;
    destruct (HALL1 (halls st)), (HALL2 (halls st)), (HALL3 (halls st));
    try discriminate Hv; reflexivity.
Qed.

(** X2. With a valid pattern the three LEDs show the three Hall inputs. *)
Theorem TrapUpdate_leds_show_hall_pattern (torque direction : Z) (st : State) :
  valid_hall (halls st) = true ->
  direction = CW \/ direction = CCW ->
  leds (TrapUpdate torque direction st) = hall_leds (halls st).
Proof.
  intros Hv Hd.
  destruct (TrapUpdate_table torque direction st Hd) as [-> | ->];
    rewrite commutate_leds; auto.
Qed.

Lemma commutate_overwrites_gates
    (f : Z -> State -> State) (torque : Z) (g : Gates) (st : State) :
  f = commutate_CW \/ f = commutate_CCW ->
  valid_hall (halls st) = true ->
  f torque (set_gates g st) = f torque st.
Proof.
  intros [-> | ->] Hv; [unfold commutate_CW | unfold commutate_CCW];
    unfold valid_hall in Hv; simpl halls;
    destruct (HALL1 (halls st)), (HALL2 (halls st)), (HALL3 (halls st));
    try discriminate Hv; reflexivity.
Qed.

(** X3. A forced duty pattern lasts until the next valid Hall transition,
    which overwrites all six duties; nothing of it remains in the state. *)
Theorem ForceDuty_overwritten_by_TrapUpdate
    (GH_A GL_A GH_B GL_B GH_C GL_C torque direction : Z) (st : State) :
  valid_hall (halls st) = true ->
  direction = CW \/ direction = CCW ->
  TrapUpdate torque direction (ForceDuty GH_A GL_A GH_B GL_B GH_C GL_C st) =
    TrapUpdate torque direction st.
Proof.
  intros Hv Hd. unfold TrapUpdate, ForceDuty.
  change (record_hall_event (set_gates ?g st))
    with (set_gates g (record_hall_event st)).
  destruct (Z.eqb_spec direction CW) as [_ | N].
  - apply commutate_overwrites_gates; auto.
  - destruct Hd as [E | E]; [contradiction |].
    rewrite E, Z.eqb_refl.
    apply commutate_overwrites_gates; auto.
Qed.

Lemma commutate_keeps_control
    (f : Z -> State -> State) (torque : Z) (st : State) :
  f = commutate_CW \/ f = commutate_CCW ->
  commandedTorque (f torque st) = commandedTorque st /\
  PIDs (f torque st) = PIDs st /\
  uart2 (f torque st) = uart2 st /\
  halls (f torque st) = halls st.
Proof.
  intros [-> | ->]; [unfold commutate_CW | unfold commutate_CCW];
    destruct (HALL1 (halls st)), (HALL2 (halls st)), (HALL3 (halls st));
    repeat split.
Qed.

(** The interrupt routine leaves the bookkeeping of [record_hall_event]. *)
Lemma CNInterrupt_fields (st : State) :
  hallCount (motorInfo (_CNInterrupt st)) =
    uwrap hallCount_bits (hallCount (motorInfo st) + 1) /\
  timer (_CNInterrupt st) = uint32 (timer st + timer_snapshot st) /\
  changeState (_CNInterrupt st) = 1 /\
  commandedTorque (_CNInterrupt st) = commandedTorque st /\
  PIDs (_CNInterrupt st) = PIDs st.
Proof.
  unfold _CNInterrupt, TrapUpdate. rewrite Z.eqb_refl.
  unfold commutate_CW.
  destruct (HALL1 (halls (record_hall_event st))),
           (HALL2 (halls (record_hall_event st))),
           (HALL3 (halls (record_hall_event st)));
    repeat split.
Qed.

Lemma deliver_fields (st : State) (ev : HallEvent) :
  hallCount (motorInfo (deliver st ev)) =
    uwrap hallCount_bits (hallCount (motorInfo st) + 1) /\
  timer (deliver st ev) = uint32 (timer st + event_ticks ev) /\
  changeState (deliver st ev) = 1.
Proof.
  unfold deliver.
  destruct (CNInterrupt_fields
              (set_halls (ev_halls ev)
                 (set_TMR3HLD (ev_TMR3HLD ev) (set_TMR2 (ev_TMR2 ev) st))))
    as (Hh & Ht & Hc & _).
  rewrite Hh, Ht, Hc. repeat split.
Qed.

Lemma hall_events_snoc (evs : list HallEvent) (ev : HallEvent) (st : State) :
  hall_events (evs ++ [ev]) st = deliver (hall_events evs st) ev.
Proof. unfold hall_events. now rewrite fold_left_app. Qed.

Lemma total_ticks_snoc (evs : list HallEvent) (ev : HallEvent) :
  total_ticks (evs ++ [ev]) = total_ticks evs + event_ticks ev.
Proof.
  induction evs as [ | a evs IH]; simpl; [lia |].
  fold (total_ticks (evs ++ [ev])). fold (total_ticks evs). lia.
Qed.

Lemma uwrap_add_l (bits a b : Z) :
  uwrap bits (uwrap bits a + b) = uwrap bits (a + b).
Proof. unfold uwrap. apply Zplus_mod_idemp_l. Qed.

Lemma uwrap_idem (bits a : Z) : uwrap bits (uwrap bits a) = uwrap bits a.
Proof. unfold uwrap. apply Zmod_mod. Qed.

(** Counting and timing are additive over a run of events, modulo the
    widths of the two counters. *)
Lemma hall_events_wrapped (evs : list HallEvent) (st : State) :
  uwrap hallCount_bits (hallCount (motorInfo (hall_events evs st))) =
    uwrap hallCount_bits (hallCount (motorInfo st) + Z.of_nat (length evs)) /\
  uint32 (timer (hall_events evs st)) = uint32 (timer st + total_ticks evs).
Proof.
  induction evs as [ | ev evs IH] using rev_ind.
  - simpl. rewrite !Z.add_0_r. split; reflexivity.
  - rewrite hall_events_snoc, total_ticks_snoc.
    destruct (deliver_fields (hall_events evs st) ev) as (Hh & Ht & _).
    destruct IH as [IHh IHt].
    rewrite Hh, Ht. rewrite length_app. simpl length.
    rewrite uwrap_idem. unfold uint32 in *. rewrite uwrap_idem.
    split.
    + rewrite <- uwrap_add_l, IHh, uwrap_add_l. f_equal. lia.
    + rewrite <- uwrap_add_l, IHt, uwrap_add_l. f_equal. lia.
Qed.

Lemma hall_events_fields (evs : list HallEvent) (st : State) :
  evs <> [] ->
  hallCount (motorInfo (hall_events evs st)) =
    uwrap hallCount_bits (hallCount (motorInfo st) + Z.of_nat (length evs)) /\
  timer (hall_events evs st) = uint32 (timer st + total_ticks evs) /\
  changeState (hall_events evs st) = 1.
Proof.
  intros Hne.
  destruct (exists_last Hne) as (evs' & ev & ->).
  destruct (hall_events_wrapped (evs' ++ [ev]) st) as [Hh Ht].
  rewrite hall_events_snoc in *.
  destruct (deliver_fields (hall_events evs' st) ev) as (Dh & Dt & Dc).
  split; [ | split; [ | exact Dc]].
  - rewrite <- Hh, Dh, uwrap_idem. reflexivity.
  - rewrite <- Ht, Dt. unfold uint32. rewrite uwrap_idem. reflexivity.
Qed.

(** X4. After a run of at least one Hall event with no control step in
    between, [hallCount] has grown by the number of events and [timer] by
    the sum of the timer readings, each modulo its width, and
    [changeState] is raised. *)
Theorem hall_events_accumulate (evs : list HallEvent) (st : State) :
  evs <> [] ->
  hallCount (motorInfo (hall_events evs st)) =
    uwrap hallCount_bits (hallCount (motorInfo st) + Z.of_nat (length evs)) /\
  timer (hall_events evs st) = uint32 (timer st + total_ticks evs) /\
  changeState (hall_events evs st) = 1.
Proof.
  intros Hne.
  destruct (hall_events_fields evs st Hne) as (Hh & Ht & Hc).
  split; [exact Hh |]. split; [exact Ht | exact Hc].
Qed.

Lemma testbit_above (a n m : Z) :
  0 <= a < 2 ^ n -> 0 <= n <= m -> Z.testbit a m = false.
Proof.
  intros Ha Hn. rewrite <- (Z.mod_small a (2 ^ n)) by lia.
  apply Z.mod_pow2_bits_high. lia.
Qed.

Lemma lor_shiftl_16 (lo hi : Z) :
  0 <= lo < 65536 -> Z.lor lo (Z.shiftl hi 16) = lo + Z.shiftl hi 16.
Proof.
  intros Hlo. rewrite <- Z.add_lor_land.
  assert (E : Z.land lo (Z.shiftl hi 16) = 0).
  { apply Z.bits_inj'. intros n Hn.
    rewrite Z.land_spec, Z.bits_0.
    destruct (Z_lt_le_dec n 16) as [L | G].
    - rewrite (Z.shiftl_spec_low hi 16 n L). apply andb_false_r.
    - rewrite (testbit_above lo 16 n); [reflexivity | | lia].
      change (2 ^ 16) with 65536. lia. }
  rewrite E. lia.
Qed.

(** X5. With both timer registers in their 16-bit range, the snapshot read
    by [TrapUpdate] is the 32-bit number whose high half is [TMR3HLD] and
    whose low half is [TMR2]. *)
Theorem timer_snapshot_is_32_bit_pair (st : State) :
  0 <= TMR2 st < 65536 ->
  0 <= TMR3HLD st < 65536 ->
  timerCurr (record_hall_event st) = TMR3HLD st * 65536 + TMR2 st /\
  0 <= timerCurr (record_hall_event st) < 2 ^ 32.
Proof.
  intros Hlo Hhi.
  assert (E : timerCurr (record_hall_event st) = TMR3HLD st * 65536 + TMR2 st).
  { change (timerCurr (record_hall_event st)) with (timer_snapshot st).
    unfold timer_snapshot, uint32, uwrap.
    rewrite Z.shiftl_mul_pow2 by lia. change (2 ^ 16) with 65536.
    change (2 ^ 32) with 4294967296.
    rewrite Z.mod_small by lia.
    change 0xFFFF0000 with (Z.shiftl (Z.ones 16) 16).
    replace (TMR3HLD st * 65536) with (Z.shiftl (TMR3HLD st) 16)
      by (rewrite Z.shiftl_mul_pow2 by lia; reflexivity).
    rewrite <- Z.shiftl_land, Z.land_ones by lia.
    change (2 ^ 16) with 65536. rewrite Z.mod_small by lia.
    rewrite lor_shiftl_16 by lia.
    rewrite Z.shiftl_mul_pow2 by lia. change (2 ^ 16) with 65536. lia. }
  split; [exact E |]. rewrite E. change (2 ^ 32) with 4294967296. lia.
Qed.

(** The duties after the interrupt routine, read off the CW table. *)
Lemma CNInterrupt_gates (st : State) :
  gates (_CNInterrupt st) =
  match HALL1 (halls st), HALL2 (halls st), HALL3 (halls st) with
  | true, true, false => mkGates 0 0 (commandedTorque st) 0 0 (commandedTorque st)
  | false, true, false => mkGates 0 (commandedTorque st) (commandedTorque st) 0 0 0
  | false, true, true => mkGates 0 (commandedTorque st) 0 0 (commandedTorque st) 0
  | false, false, true => mkGates 0 0 0 (commandedTorque st) (commandedTorque st) 0
  | true, false, true => mkGates (commandedTorque st) 0 0 (commandedTorque st) 0 0
  | true, false, false => mkGates (commandedTorque st) 0 0 0 0 (commandedTorque st)
  | _, _, _ => gates st
  end.
Proof.
  unfold _CNInterrupt, TrapUpdate. rewrite Z.eqb_refl.
  unfold commutate_CW.
  destruct (HALL1 (halls (record_hall_event st))) eqn:E1,
           (HALL2 (halls (record_hall_event st))) eqn:E2,
           (HALL3 (halls (record_hall_event st))) eqn:E3;
    rewrite halls_record_hall_event in E1, E2, E3;
    rewrite E1, E2, E3; reflexivity.
Qed.

Lemma SpeedControlInit_frame (p i d : float) (st : State) :
  changeState (SpeedControlInit p i d st) = changeState st /\
  commandedTorque (SpeedControlInit p i d st) = commandedTorque st /\
  gates (SpeedControlInit p i d st) = gates st /\
  halls (SpeedControlInit p i d st) = halls st.
Proof. repeat split. Qed.

(** X6. Re-initialising the speed controller neither cancels a pending
    update nor changes the torque the next commutation applies. *)
Theorem SpeedControlInit_keeps_commutation (p i d : float) (st : State) :
  changeState (SpeedControlInit p i d st) = changeState st /\
  commandedTorque (SpeedControlInit p i d st) = commandedTorque st /\
  gates (SpeedControlInit p i d st) = gates st /\
  gates (_CNInterrupt (SpeedControlInit p i d st)) = gates (_CNInterrupt st).
Proof.
  destruct (SpeedControlInit_frame p i d st) as (Hc & Hq & Hg & Hh).
  split; [exact Hc |]. split; [exact Hq |]. split; [exact Hg |].
  rewrite !CNInterrupt_gates. rewrite Hh, Hq, Hg. reflexivity.
Qed.

End MoreCommutation.

(** ** Further properties of the speed loop *)

Section MoreSpeedLoop.
Context {T : Target}.

(** The three ways a call of [SpeedControlStep] can go. *)
Lemma SpeedControlStep_cases (speed direction update : Z) (st : State) :
  (update = 0 \/ changeState st = 0) \/
  (update <> 0 /\ changeState st <> 0 /\
   (hallCount (motorInfo st) = 0 \/
    timer st / hallCount (motorInfo st) = 0)) \/
  (update <> 0 /\ changeState st <> 0 /\
   hallCount (motorInfo st) <> 0 /\
   timer st / hallCount (motorInfo st) <> 0).
Proof.
  destruct (Z.eq_dec update 0); [tauto |].
  destruct (Z.eq_dec (changeState st) 0); [tauto |].
  destruct (Z.eq_dec (hallCount (motorInfo st)) 0); [tauto |].
  destruct (Z.eq_dec (timer st / hallCount (motorInfo st)) 0); tauto.
Qed.

(** X7. [SpeedControlChangeTunings] reaches the DSP library only: the gains
    and the history used by [SpeedControlStep] are untouched, so a control
    step gives the same result before and after a change of tunings. *)
Theorem SpeedControlChangeTunings_does_not_reach_the_speed_loop
    (p i d : float) (speed direction update : Z) (st : State) :
  PIDs (SpeedControlChangeTunings p i d st) = PIDs st /\
  SpeedControlStep speed direction update (SpeedControlChangeTunings p i d st) =
    option_map (SpeedControlChangeTunings p i d)
      (SpeedControlStep speed direction update st).
Proof.
  split; [reflexivity |].
  destruct (SpeedControlStep_cases speed direction update st)
    as [Hskip | [(Hu & Hc & Hz) | (Hu & Hc & Hh & Ht)]].
  - rewrite (SpeedControlStep_skips speed direction update st Hskip).
    apply SpeedControlStep_skips. exact Hskip.
  - rewrite (SpeedControlStep_divides speed direction update st Hu Hc Hz).
    apply SpeedControlStep_divides; assumption.
  - rewrite (SpeedControlStep_runs speed direction update st Hu Hc Hh Ht).
    apply (SpeedControlStep_runs speed direction update
             (SpeedControlChangeTunings p i d st) Hu Hc Hh Ht).
Qed.

(** X8. The step never drives the hardware and never changes the gains:
    whatever it is given and whenever it returns, the six duties, the LEDs,
    the timer registers, the interrupt flag and Kp, Ki, Kd are as before. *)
Theorem SpeedControlStep_keeps_outputs_and_gains
    (speed direction update : Z) (st st' : State) :
  SpeedControlStep speed direction update st = Some st' ->
  gates st' = gates st /\ leds st' = leds st /\
  TMR2 st' = TMR2 st /\ TMR3HLD st' = TMR3HLD st /\ CNIF st' = CNIF st /\
  Kp (PIDs st') = Kp (PIDs st) /\
  Ki (PIDs st') = Ki (PIDs st) /\
  Kd (PIDs st') = Kd (PIDs st).
Proof.
  intros Hrun.
  destruct (SpeedControlStep_cases speed direction update st)
    as [Hskip | [(Hu & Hc & Hz) | (Hu & Hc & Hh & Ht)]].
  - rewrite (SpeedControlStep_skips speed direction update st Hskip) in Hrun.
    injection Hrun as <-. repeat split.
  - rewrite (SpeedControlStep_divides speed direction update st Hu Hc Hz) in Hrun.
    discriminate Hrun.
  - rewrite (SpeedControlStep_runs speed direction update st Hu Hc Hh Ht) in Hrun.
    injection Hrun as <-. repeat split.
Qed.


(** X10. The output of a step is one step late: the clamped output, the
    integral and the commanded torque are computed from the error stored
    by the previous step, so they are the same whatever target speed and
    direction this call is given. *)
Theorem SpeedControlStep_output_ignores_target
    (speed1 direction1 speed2 direction2 update : Z) (st : State) :
  option_map
    (fun s => (output (PIDs s), integral (PIDs s), commandedTorque s))
    (SpeedControlStep speed1 direction1 update st) =
  option_map
    (fun s => (output (PIDs s), integral (PIDs s), commandedTorque s))
    (SpeedControlStep speed2 direction2 update st).
Proof.
  destruct (SpeedControlStep_cases speed1 direction1 update st)
    as [Hskip | [(Hu & Hc & Hz) | (Hu & Hc & Hh & Ht)]].
  - rewrite !SpeedControlStep_skips by exact Hskip. reflexivity.
  - rewrite !SpeedControlStep_divides by assumption. reflexivity.
  - rewrite !SpeedControlStep_runs by assumption. reflexivity.
Qed.

(** X11. The second unguarded division.  When fewer ticks than transitions
    were counted, the inner quotient is 0 and 52500000 is divided by
    zero. *)
Theorem SpeedControlStep_fewer_ticks_than_transitions
    (speed direction update : Z) (st : State) :
  update <> 0 ->
  changeState st <> 0 ->
  0 <= timer st < hallCount (motorInfo st) ->
  SpeedControlStep speed direction update st = None.
Proof.
  intros Hu Hc Hlt.
  apply SpeedControlStep_divides; [assumption .. |].
  right. apply Z.div_small. exact Hlt.
Qed.

(** X12. The transition counter wraps.  After as many Hall events as the
    counter has values, with no control step in between, [hallCount] is
    back at 0 with [changeState] raised, and the next control step divides
    by zero. *)
Theorem SpeedControlStep_after_counter_wrap
    (speed direction update : Z) (evs : list HallEvent) (st : State) :
  update <> 0 ->
  0 <= hallCount_bits ->
  hallCount (motorInfo st) = 0 ->
  Z.of_nat (length evs) = 2 ^ hallCount_bits ->
  hallCount (motorInfo (hall_events evs st)) = 0 /\
  SpeedControlStep speed direction update (hall_events evs st) = None.
Proof.
  intros Hu Hb Hz Hlen.
  pose proof (pow2_pos hallCount_bits Hb) as Hp.
  assert (Hne : evs <> []).
  { intros ->. simpl in Hlen. lia. }
  destruct (hall_events_fields evs st Hne) as (Hh & _ & Hc).
  assert (E : hallCount (motorInfo (hall_events evs st)) = 0).
  { rewrite Hh, Hz, Hlen. unfold uwrap. simpl Z.add.
    apply Z_mod_same_full. }
  split; [exact E |].
  apply SpeedControlStep_divides; [exact Hu | lia | left; exact E].
Qed.

(** X13. The speed estimate over several transitions.  After [n] Hall
    events since the last control step (no counter having wrapped), the
    estimate is 52500000 divided by the mean number of ticks per
    transition. *)
Theorem SpeedControlStep_estimate_over_events
    (speed direction update : Z) (evs : list HallEvent) (st : State) :
  update <> 0 ->
  hallCount (motorInfo st) = 0 ->
  timer st = 0 ->
  0 < Z.of_nat (length evs) < 2 ^ hallCount_bits ->
  0 <= total_ticks evs < 2 ^ 32 ->
  0 < total_ticks evs / Z.of_nat (length evs) ->
  exists st',
    SpeedControlStep speed direction update (hall_events evs st) = Some st' /\
    currentSpeed (motorInfo st') =
      52500000 / (total_ticks evs / Z.of_nat (length evs)).
Proof.
  intros Hu Hz Ht0 Hlen Htot Hq.
  assert (Hne : evs <> []).
  { intros ->. simpl in Hlen. lia. }
  destruct (hall_events_fields evs st Hne) as (Hh & Ht & Hc).
  rewrite Hz in Hh. rewrite Ht0 in Ht. simpl Z.add in Hh, Ht.
  unfold uwrap in Hh. rewrite Z.mod_small in Hh by lia.
  unfold uint32, uwrap in Ht. rewrite Z.mod_small in Ht by lia.
  eexists. split.
  - apply SpeedControlStep_runs; rewrite ?Hh, ?Ht, ?Hc; lia.
  - simpl. rewrite Hh, Ht.
    apply int32_small, speed_quotient_range, Hq.
Qed.

(** X14. The speed estimate stored by a control computation is never
    negative and never above 52,500,000. *)
Theorem SpeedControlStep_estimate_range
    (speed direction update : Z) (st st' : State) :
  update <> 0 ->
  changeState st <> 0 ->
  0 <= timer st ->
  0 <= hallCount (motorInfo st) ->
  SpeedControlStep speed direction update st = Some st' ->
  0 <= currentSpeed (motorInfo st') <= 52500000.
Proof.
  intros Hu Hc Ht0 Hh0 Hrun.
  destruct (SpeedControlStep_returns _ _ _ _ _ Hu Hc Hrun) as [Hh Ht].
  rewrite (SpeedControlStep_runs speed direction update st Hu Hc Hh Ht) in Hrun.
  injection Hrun as <-. simpl.
  assert (Hq : 0 < timer st / hallCount (motorInfo st)).
  { assert (0 <= timer st / hallCount (motorInfo st))
      by (apply Z.div_pos; lia).
    lia. }
  rewrite int32_small by (apply speed_quotient_range, Hq).
  apply speed_quotient_range, Hq.
Qed.

End MoreSpeedLoop.


Lemma pos_iter_xO (m d : positive) :
  Zpos (Pos.iter xO m d) = Zpos m * 2 ^ Zpos d.
Proof.
  induction d as [ | d IH] using Pos.peano_ind.
  - simpl. lia.
  - rewrite Pos.iter_succ, Pos2Z.inj_xO, IH, Pos2Z.inj_succ.
    rewrite Z.pow_succ_r by lia. ring.
Qed.

(** Aligning a mantissa to a lower exponent multiplies it by the power of
    two in between. *)
Lemma shl_align_value (m : positive) (e e' : Z) :
  e' <= e ->
  Zpos (fst (shl_align m e e')) = Zpos m * 2 ^ (e - e').
Proof.
  intros Hle. unfold shl_align.
  destruct (e' - e) as [ | d | d] eqn:E; try lia.
  - replace (e - e') with 0 by lia. simpl fst. lia.
  - simpl fst. rewrite pos_iter_xO. f_equal. f_equal. lia.
Qed.

(** Adding a positive number to 2,000,000 gives at least 2,000,000. *)
Lemma f32_add_2000000_finite (mx : positive) (ex : Z) :
  let r := f32_add (S754_finite false 16000000 (-3)) (S754_finite false mx ex) in
  r = S754_infinity false \/
  exists mr er,
    r = S754_finite false mr er /\
    (-3 < er \/ (er = -3 /\ 16000000 <= Zpos mr)).
Proof.
  intros r. subst r. unfold f32_add, SFadd.
  set (ez := Z.min (-3) ex).
  assert (Hez : ez <= -3) by (unfold ez; lia).
  assert (Hezx : ez <= ex) by (unfold ez; lia).
  rewrite (shl_align_value 16000000 (-3) ez Hez).
  rewrite (shl_align_value mx ex ez Hezx).
  unfold cond_Zopp.
  pose proof (pow2_pos (-3 - ez) ltac:(lia)) as Pc.
  pose proof (pow2_pos (ex - ez) ltac:(lia)) as Px.
  set (m := 16000000 * 2 ^ (-3 - ez) + Zpos mx * 2 ^ (ex - ez)).
  assert (Hm : 16000000 * 2 ^ (-3 - ez) <= m) by (unfold m; nia).
  assert (Hmpos : 0 < m) by lia.
  destruct m as [ | p | p] eqn:Em; try lia.
  unfold binary_normalize, binary_round.
  (* the sum has at least 21 - ez digits *)
  pose proof (digits2_pos_bounds p) as [Dlo Dhi].
  set (d := Zpos (digits2_pos p)) in *.
  assert (Hd : 21 - ez <= d).
  { assert (2 ^ (20 - ez) < 2 ^ d).
    { assert (2 ^ (20 - ez) = 8388608 * 2 ^ (-3 - ez)).
      { change 8388608 with (2 ^ 23). rewrite <- pow2_split by lia.
        f_equal. lia. }
      lia. }
    apply pow2_lt_inv in H; lia. }
  assert (Hshl : shl_align p ez (fexp prec32 emax32 (d + ez)) = (p, ez)).
  { unfold shl_align. rewrite fexp32.
    destruct (Z.max (d + ez - 24) (-149) - ez) eqn:E; try reflexivity. lia. }
  rewrite Hshl.
  destruct (binary_round_aux_spec prec32 emax32 false (Zpos p) ez loc_Exact
              ltac:(lia)) as (m2 & H2 & Hr).
  cbv zeta in Hr.
  repeat rewrite fexp32 in H2. repeat rewrite fexp32 in Hr.
  change (Zdigits2 (Zpos p)) with d in H2, Hr.
  replace (Z.max (Z.max (d + ez - 24) (-149) - ez) 0)
    with (Z.max (d + ez - 24) (-149) - ez) in H2 by lia.
  replace (Z.max (Z.max (d + ez - 24) (-149) - ez) 0)
    with (Z.max (d + ez - 24) (-149) - ez) in Hr by lia.
  replace (ez + (Z.max (d + ez - 24) (-149) - ez))
    with (Z.max (d + ez - 24) (-149)) in Hr by lia.
  rewrite Hr. clear Hr.
  set (e1 := Z.max (d + ez - 24) (-149)) in *.
  assert (He1 : -3 <= e1) by (unfold e1; lia).
  set (n := e1 - ez) in *.
  assert (Hn : 0 <= n) by (unfold n; lia).
  pose proof (pow2_pos n Hn) as Pn.
  set (m1 := Zpos p / 2 ^ n) in *.
  (* the truncated mantissa still reaches 2,000,000 *)
  assert (Hm1 : 1 <= m1 /\ (e1 = -3 -> 16000000 <= m1)).
  { destruct (Z_le_gt_dec e1 7) as [Hsmall | Hbig].
    - assert (Hc : 15625 * 2 ^ (7 - e1) <= m1).
      { apply Z.div_le_lower_bound; [lia |].
        assert (E : 2 ^ n * (15625 * 2 ^ (7 - e1)) = 16000000 * 2 ^ (-3 - ez)).
        { change 16000000 with (15625 * 2 ^ 10).
          replace n with ((e1 + 3) + (-3 - ez)) by (unfold n; lia).
          rewrite (pow2_split (e1 + 3)) by lia.
          replace 10 with ((7 - e1) + (e1 + 3)) at 1 by lia.
          rewrite (pow2_split (7 - e1)) by lia. ring. }
        rewrite E. exact Hm. }
      pose proof (pow2_pos (7 - e1) ltac:(lia)).
      split; [lia |]. intros ->. change (2 ^ (7 - -3)) with 1024 in Hc. lia.
    - assert (P1 : 0 < m1).
      { apply Z.div_str_pos. split; [lia |].
        assert (2 ^ n <= 2 ^ (d - 1)) by (apply pow2_le; unfold n, e1; lia).
        lia. }
      split; [lia | lia]. }
  destruct Hm1 as [Hm1 Hm1'].
  assert (Hm2 : m1 <= m2) by lia.
  set (d2 := Zdigits2 m2) in *.
  pose proof (Zdigits2_bounds m2 ltac:(lia)) as [D2lo D2hi]. fold d2 in D2lo, D2hi.
  pose proof (Zdigits2_pos m2 ltac:(lia)) as D2p. fold d2 in D2p.
  set (n2 := Z.max (Z.max (d2 + e1 - 24) (-149) - e1) 0) in *.
  assert (Hn2 : 0 <= n2 < d2) by (unfold n2; lia).
  pose proof (pow2_pos n2 ltac:(lia)) as Pn2.
  assert (Hm3 : 0 < m2 / 2 ^ n2).
  { apply Z.div_str_pos. split; [lia |].
    assert (2 ^ n2 <= 2 ^ (d2 - 1)) by (apply pow2_le; lia). lia. }
  unfold rounded.
  destruct (m2 / 2 ^ n2) as [ | p3 | p3] eqn:E3; try lia.
  destruct (e1 + n2 <=? emax32 - prec32); [ | left; reflexivity].
  right. exists p3, (e1 + n2). split; [reflexivity |].
  destruct (Z.eq_dec (e1 + n2) (-3)) as [Heq | Hne]; [ | left; lia].
  right. split; [exact Heq |].
  assert (n2 = 0) by lia. assert (e1 = -3) by lia.
  rewrite H in E3. change (2 ^ 0) with 1 in E3. rewrite Z.div_1_r in E3.
  specialize (Hm1' H0). lia.
Qed.

(** Strict order of two positive finite numbers, read on exponent and
    mantissa. *)
Lemma f32_ltb_finite (m1 : positive) (e1 : Z) (m2 : positive) (e2 : Z) :
  e1 < e2 \/ (e1 = e2 /\ Zpos m1 < Zpos m2) ->
  f32_ltb (S754_finite false m1 e1) (S754_finite false m2 e2) = true.
Proof.
  unfold f32_ltb, SFltb, SFcompare.
  change (Pos.compare_cont Eq m1 m2) with (Pos.compare m1 m2).
  intros [L | [E L]].
  - destruct (Z.compare_spec e1 e2); [lia | reflexivity | lia].
  - destruct (Z.compare_spec e1 e2); [ | lia | lia].
    destruct (Pos.compare_spec m1 m2) as [E' | L' | G'].
    + subst. lia.
    + reflexivity.
    + apply Pos2Z.pos_lt_pos in G'. lia.
Qed.

(** An integral at its bound stays there when a number that is not
    negative is added. *)
Lemma clamp_integral_saturated (x : float) :
  f32_leb (f32_of_Z 0) x = true ->
  clamp_integral (f32_add (f32_of_Z 2000000) x) = f32_of_Z 2000000.
Proof.
  intros Hx. rewrite f32_of_Z_2000000.
  destruct x as [s | s | | s mx ex].
  - unfold clamp_integral. rewrite f32_of_Z_2000000.
    destruct s; reflexivity.
  - destruct s; [discriminate Hx |].
    unfold clamp_integral. rewrite f32_of_Z_2000000. reflexivity.
  - discriminate Hx.
  - destruct s; [discriminate Hx |].
    unfold clamp_integral. rewrite f32_of_Z_2000000.
    destruct (f32_add_2000000_finite mx ex)
      as [-> | (mr & er & -> & Hr)]; [reflexivity |].
    destruct Hr as [L | [-> Hm]].
    + rewrite f32_ltb_finite by (left; exact L). reflexivity.
    + destruct (Z.eq_dec (Zpos mr) 16000000) as [E | N].
      * injection E as ->.
        destruct (f32_ltb (S754_finite false 16000000 (-3))
                    (S754_finite false 16000000 (-3))); reflexivity.
      * rewrite f32_ltb_finite by (right; split; [reflexivity | lia]).
        reflexivity.
Qed.

Lemma f32_ltb_zero_not_above (x : float) :
  f32_ltb x (f32_of_Z 0) = true -> f32_ltb (f32_of_Z 30000) x = false.
Proof.
  rewrite f32_of_Z_0, f32_of_Z_30000.
  destruct x as [s | s | | s m e]; try discriminate.
  - destruct s; [reflexivity | discriminate].
  - destruct s; [reflexivity | discriminate].
Qed.

(** The torque computed from a clamped output that is a number. *)
Lemma clamped_output_torque_range {T : Target} (y : spec_float) :
  is_nan (clamp_output (to_f32 y)) = false ->
  0 <= f32_to_uint16 (f32_div (clamp_output (to_f32 y)) (f32_of_Z 30)) <= 1000.
Proof.
  intros Hn. rewrite clamp_output_nan in Hn.
  destruct (clamp_output_range (to_f32 y) Hn) as [Hlo Hhi].
  assert (Hv : valid_binary prec32 emax32 (clamp_output (to_f32 y)) = true)
    by (apply clamp_output_valid, to_f32_valid).
  destruct (f32_div_30_trunc _ Hv Hlo Hhi) as (z & Hz & Hr).
  unfold f32_to_uint16. rewrite Hz.
  destruct (Z.leb_spec 0 z); [ | lia].
  destruct (Z.leb_spec z 65535); [ | lia].
  simpl. exact Hr.
Qed.

(** The conversion of an integer that is not negative is not negative. *)
Lemma f32_of_Z_nonneg (z : Z) :
  0 <= z -> f32_leb (f32_of_Z 0) (f32_of_Z z) = true.
Proof.
  intros Hz. rewrite f32_of_Z_0.
  unfold f32_of_Z, binary_normalize.
  destruct z as [ | p | p]; [reflexivity | | lia].
  unfold binary_round.
  destruct (shl_align p 0 (fexp prec32 emax32 (Zpos (digits2_pos p) + 0)))
    as [mz ez].
  destruct (binary_round_aux_spec prec32 emax32 false (Zpos mz) ez loc_Exact
              ltac:(lia)) as (m2 & H2 & ->).
  cbv zeta. unfold rounded.
  match goal with
  | |- context [match ?q with Z0 => _ | Zpos _ => _ | Zneg _ => _ end] =>
      assert (Hq : 0 <= q); [ | destruct q as [ | q' | q']; try lia ]
  end.
  - apply Z.div_pos; [ | apply pow2_pos; lia].
    assert (0 <= Zpos mz / 2 ^ Z.max (fexp prec32 emax32 (Zdigits2 (Zpos mz) + ez) - ez) 0)
      by (apply Z.div_pos; [lia | apply pow2_pos; lia]).
    lia.
  - reflexivity.
  - match goal with |- context [if ?c then _ else _] => destruct c end;
      reflexivity.
Qed.

Lemma CNInterrupt_clears_timer_pair {T : Target} (st : State) :
  TMR2 (_CNInterrupt st) = 0 /\ TMR3HLD (_CNInterrupt st) = 0.
Proof.
  unfold _CNInterrupt, TrapUpdate. rewrite Z.eqb_refl.
  unfold commutate_CW.
  destruct (HALL1 (halls (record_hall_event st))),
           (HALL2 (halls (record_hall_event st))),
           (HALL3 (halls (record_hall_event st)));
    split; reflexivity.
Qed.

Section Saturation.
Context {T : Target}.

Lemma SpeedControlStep_unclamped (speed direction update : Z) (st st' : State) :
  update <> 0 ->
  changeState st <> 0 ->
  SpeedControlStep speed direction update st = Some st' ->
  output (PIDs st') = clamp_output (unclamped_output st) /\
  commandedTorque st' =
    f32_to_uint16 (f32_div (clamp_output (unclamped_output st)) (f32_of_Z 30)).
Proof.
  intros Hu Hc Hrun.
  destruct (SpeedControlStep_PIDs _ _ _ _ _ Hu Hc Hrun) as (_ & Ho & _ & Ht).
  split; [exact Ho | exact Ht].
Qed.

(** X15. A sum above 30000 is replaced by 30000 and commands the full
    torque, 1000. *)
Theorem SpeedControlStep_saturates_high
    (speed direction update : Z) (st st' : State) :
  update <> 0 ->
  changeState st <> 0 ->
  SpeedControlStep speed direction update st = Some st' ->
  f32_ltb (f32_of_Z 30000) (unclamped_output st) = true ->
  output (PIDs st') = f32_of_Z 30000 /\ commandedTorque st' = 1000.
Proof.
  intros Hu Hc Hrun Hhi.
  destruct (SpeedControlStep_unclamped _ _ _ _ _ Hu Hc Hrun) as [-> ->].
  unfold clamp_output. rewrite Hhi. split; reflexivity.
Qed.

(** X16. A negative sum is replaced by 0 and commands no torque. *)
Theorem SpeedControlStep_saturates_low
    (speed direction update : Z) (st st' : State) :
  update <> 0 ->
  changeState st <> 0 ->
  SpeedControlStep speed direction update st = Some st' ->
  f32_ltb (unclamped_output st) (f32_of_Z 0) = true ->
  output (PIDs st') = f32_of_Z 0 /\ commandedTorque st' = 0.
Proof.
  intros Hu Hc Hrun Hlo.
  destruct (SpeedControlStep_unclamped _ _ _ _ _ Hu Hc Hrun) as [-> ->].
  unfold clamp_output.
  rewrite (f32_ltb_zero_not_above _ Hlo), Hlo. split; reflexivity.
Qed.

(** X17. Anti-windup.  Once the integral is at 2,000,000, a control
    computation whose stored error is not negative leaves it there. *)
Theorem SpeedControlStep_integral_stays_saturated
    (speed direction update : Z) (st st' : State) :
  update <> 0 ->
  changeState st <> 0 ->
  integral (PIDs st) = f32_of_Z 2000000 ->
  f32_leb (f32_of_Z 0) (err (PIDs st)) = true ->
  SpeedControlStep speed direction update st = Some st' ->
  integral (PIDs st') = f32_of_Z 2000000.
Proof.
  intros Hu Hc Hi He Hrun.
  destruct (SpeedControlStep_PIDs _ _ _ _ _ Hu Hc Hrun) as (-> & _).
  rewrite Hi. apply clamp_integral_saturated. exact He.
Qed.

(** X18. From the control step to the gates.  When a control computation
    leaves an output that is a number, the next Hall transition with a
    valid pattern drives every gate with a duty in [0, 1000]. *)
Theorem SpeedControlStep_then_commutation_duty_range
    (speed direction update ticks : Z) (h : Halls) (st st' : State)
    (p : Phase) :
  update <> 0 ->
  changeState st <> 0 ->
  SpeedControlStep speed direction update st = Some st' ->
  is_nan (output (PIDs st')) = false ->
  valid_hall h = true ->
  0 <= high_side (gates (hall_transition ticks h st')) p <= 1000 /\
  0 <= low_side (gates (hall_transition ticks h st')) p <= 1000.
Proof.
  intros Hu Hc Hrun Hn Hv.
  destruct (SpeedControlStep_unclamped _ _ _ _ _ Hu Hc Hrun) as [Ho Ht].
  rewrite Ho in Hn.
  assert (Hr : 0 <= commandedTorque st' <= 1000).
  { rewrite Ht. apply clamped_output_torque_range. exact Hn. }
  unfold hall_transition. rewrite CNInterrupt_gates.
  change (halls (set_halls h (set_TMR2 ticks st'))) with h.
  change (commandedTorque (set_halls h (set_TMR2 ticks st')))
    with (commandedTorque st').
  unfold valid_hall in Hv.
  destruct (HALL1 h), (HALL2 h), (HALL3 h); try discriminate Hv;
    destruct p; simpl; lia.
Qed.

Lemma control_round_keeps_saturated (ticks speed : Z) (st : State) :
  1 <= hallCount_bits ->
  0 < ticks < 2 ^ 32 ->
  52500000 / ticks <= speed ->
  saturated st ->
  exists st', control_round ticks speed st = Some st' /\ saturated st'.
Proof.
  intros Hb Ht Hs (Hi & He & Htm & Hh & H3).
  unfold control_round, hall_transition.
  set (st0 := set_halls (halls st) (set_TMR2 ticks st)).
  destruct (CNInterrupt_fields st0) as (Fh & Ft & Fc & _ & Fp).
  destruct (CNInterrupt_clears_timer_pair st0) as (_ & F3).
  assert (Esnap : timer_snapshot st0 = ticks).
  { unfold timer_snapshot, st0. simpl TMR2. simpl TMR3HLD. rewrite H3.
    change (Z.land (uint32 (Z.shiftl 0 16)) 0xFFFF0000) with 0.
    apply Z.lor_0_r. }
  assert (Eh : hallCount (motorInfo (_CNInterrupt st0)) = 1).
  { rewrite Fh. unfold st0. simpl hallCount. rewrite Hh. unfold uwrap.
    simpl Z.add. apply Z.mod_small.
    assert (2 ^ 1 <= 2 ^ hallCount_bits) by (apply pow2_le; lia).
    change (2 ^ 1) with 2 in H. lia. }
  assert (Et : timer (_CNInterrupt st0) = ticks).
  { rewrite Ft, Esnap. unfold st0. simpl timer. rewrite Htm.
    unfold uint32, uwrap. simpl Z.add. apply Z.mod_small. lia. }
  assert (Hq : timer (_CNInterrupt st0) / hallCount (motorInfo (_CNInterrupt st0))
               = ticks).
  { rewrite Et, Eh. apply Z.div_1_r. }
  eexists. split.
  - apply SpeedControlStep_runs; rewrite ?Hq, ?Eh, ?Fc; lia.
  - unfold saturated.
    cbn [integral PIDs err timer hallCount motorInfo TMR3HLD].
    rewrite Hq, Fp, F3.
    change (PIDs st0) with (PIDs st). rewrite Hi.
    assert (Hv : 0 <= 52500000 / ticks <= 52500000)
      by (apply speed_quotient_range; lia).
    rewrite int32_small by exact Hv.
    split; [apply clamp_integral_saturated; exact He |].
    split; [apply f32_of_Z_nonneg; lia |].
    repeat split.
Qed.

(** X19. Saturation persists.  From a state whose integral is at 2,000,000,
    any number of rounds (one Hall transition, one control step) that ask
    for at least the speed the rotor turns at leave the integral at
    2,000,000. *)
Theorem control_rounds_stay_saturated
    (n : nat) (ticks speed : Z) (st : State) :
  1 <= hallCount_bits ->
  0 < ticks < 2 ^ 32 ->
  52500000 / ticks <= speed ->
  saturated st ->
  exists st',
    control_rounds n ticks speed st = Some st' /\
    integral (PIDs st') = f32_of_Z 2000000.
Proof.
  intros Hb Ht Hs. revert st.
  induction n as [ | n IH]; intros st Hsat.
  - exists st. split; [reflexivity | apply Hsat].
  - destruct (control_round_keeps_saturated ticks speed st Hb Ht Hs Hsat)
      as (st1 & Hr & Hsat1).
    destruct (IH st1 Hsat1) as (st' & Hrun & Hi).
    exists st'. split; [ | exact Hi].
    simpl. rewrite Hr. exact Hrun.
Qed.

End Saturation.

(** ** The further properties at concrete inputs *)

(** X1 with a 16-bit target ([CW] = 0, [CCW] = 1) and direction 2. *)
Lemma TrapUpdate_unknown_direction_witness :
  2 <> CW (Target := xc16) /\
  2 <> CCW (Target := xc16) /\
  TrapUpdate (T := xc16) 700 2 one_transition =
    record_hall_event (T := xc16) one_transition /\
  gates (TrapUpdate (T := xc16) 700 2 one_transition) = gates one_transition /\
  leds (TrapUpdate (T := xc16) 700 2 one_transition) = leds one_transition /\
  changeState (TrapUpdate (T := xc16) 700 2 one_transition) = 1.
Proof.
  split; [vm_compute; lia |]. split; [vm_compute; lia |].
  apply (@TrapUpdate_unknown_direction xc16 700 2 one_transition).
  - vm_compute. lia.
  - vm_compute. lia.
Defined.

(** X2 at the pattern 110 under the CCW table. *)
Lemma TrapUpdate_leds_witness :
  valid_hall (halls (power_on hall_110)) = true /\
  (1 = CW (Target := xc16) \/ 1 = CCW (Target := xc16)) /\
  leds (TrapUpdate (T := xc16) 700 1 (power_on hall_110)) = mkLeds 1 1 0.
Proof.
  split; [reflexivity |]. split; [right; reflexivity |].
  apply (@TrapUpdate_leds_show_hall_pattern xc16 700 1 (power_on hall_110)).
  - reflexivity.
  - right. reflexivity.
Defined.

(** X3 with all six gates forced to 300 before a transition at 110. *)
Lemma ForceDuty_overwritten_witness :
  valid_hall (halls (power_on hall_110)) = true /\
  (0 = CW (Target := xc16) \/ 0 = CCW (Target := xc16)) /\
  TrapUpdate (T := xc16) 700 0
      (ForceDuty 300 300 300 300 300 300 (power_on hall_110)) =
    TrapUpdate (T := xc16) 700 0 (power_on hall_110).
Proof.
  split; [reflexivity |]. split; [left; reflexivity |].
  apply (@ForceDuty_overwritten_by_TrapUpdate xc16
           300 300 300 300 300 300 700 0 (power_on hall_110)).
  - reflexivity.
  - left. reflexivity.
Defined.

(** X4 with four transitions of 52500 ticks: the counter reads 4 and the
    timer 210000. *)
Lemma hall_events_accumulate_witness :
  four_events <> [] /\
  hallCount (motorInfo (hall_events (T := xc16) four_events
                          (started f32_zero f32_zero f32_zero))) =
    uwrap (hallCount_bits (Target := xc16))
      (hallCount (motorInfo (started f32_zero f32_zero f32_zero)) +
       Z.of_nat (length four_events)) /\
  timer (hall_events (T := xc16) four_events
           (started f32_zero f32_zero f32_zero)) =
    uint32 (timer (started f32_zero f32_zero f32_zero) +
            total_ticks four_events) /\
  changeState (hall_events (T := xc16) four_events
                 (started f32_zero f32_zero f32_zero)) = 1.
Proof.
  split; [discriminate |].
  apply (@hall_events_accumulate xc16 four_events
           (started f32_zero f32_zero f32_zero)).
  discriminate.
Defined.

(** X5 with [TMR3HLD] = 2 and [TMR2] = 4660: the snapshot is 135732. *)
Lemma timer_snapshot_witness :
  0 <= TMR2 (set_TMR3HLD 2 (set_TMR2 4660 (power_on hall_110))) < 65536 /\
  0 <= TMR3HLD (set_TMR3HLD 2 (set_TMR2 4660 (power_on hall_110))) < 65536 /\
  timerCurr
    (record_hall_event (T := xc16)
       (set_TMR3HLD 2 (set_TMR2 4660 (power_on hall_110)))) =
    TMR3HLD (set_TMR3HLD 2 (set_TMR2 4660 (power_on hall_110))) * 65536 +
    TMR2 (set_TMR3HLD 2 (set_TMR2 4660 (power_on hall_110))) /\
  0 <= timerCurr
         (record_hall_event (T := xc16)
            (set_TMR3HLD 2 (set_TMR2 4660 (power_on hall_110)))) < 2 ^ 32.
Proof.
  split; [vm_compute; split; [discriminate | reflexivity] |].
  split; [vm_compute; split; [discriminate | reflexivity] |].
  apply (@timer_snapshot_is_32_bit_pair xc16
           (set_TMR3HLD 2 (set_TMR2 4660 (power_on hall_110)))).
  - vm_compute. split; [discriminate | reflexivity].
  - vm_compute. split; [discriminate | reflexivity].
Defined.

(** X8 at the second control step with Kp = Ki = 1. *)
Lemma SpeedControlStep_keeps_outputs_witness :
  exists st',
    SpeedControlStep (T := xc16) 1500 0 1 second_transition = Some st' /\
    gates st' = gates second_transition /\
    leds st' = leds second_transition /\
    TMR2 st' = TMR2 second_transition /\
    TMR3HLD st' = TMR3HLD second_transition /\
    CNIF st' = CNIF second_transition /\
    Kp (PIDs st') = Kp (PIDs second_transition) /\
    Ki (PIDs st') = Ki (PIDs second_transition) /\
    Kd (PIDs st') = Kd (PIDs second_transition).
Proof.
  eexists.
  split; [vm_compute; reflexivity |].
  eapply (@SpeedControlStep_keeps_outputs_and_gains xc16 1500 0 1
            second_transition).
  vm_compute. reflexivity.
Defined.


(** X11 at a transition that arrives with the timer still at 0. *)
Lemma SpeedControlStep_fewer_ticks_witness :
  1 <> 0 /\
  changeState instant_transition <> 0 /\
  0 <= timer instant_transition < hallCount (motorInfo instant_transition) /\
  SpeedControlStep (T := xc16) 1000 0 1 instant_transition = None.
Proof.
  split; [lia |]. split; [vm_compute; lia |].
  split; [vm_compute; split; [discriminate | reflexivity] |].
  apply (@SpeedControlStep_fewer_ticks_than_transitions xc16 1000 0 1
           instant_transition).
  - lia.
  - vm_compute. lia.
  - vm_compute. split; [discriminate | reflexivity].
Defined.

(** X12 with a 16-bit counter and 65536 transitions. *)
Lemma SpeedControlStep_after_counter_wrap_witness :
  1 <> 0 /\
  0 <= hallCount_bits (Target := xc16) /\
  hallCount (motorInfo (started f32_zero f32_zero f32_zero)) = 0 /\
  Z.of_nat (length full_count_of_events) = 2 ^ hallCount_bits (Target := xc16) /\
  hallCount
    (motorInfo (hall_events (T := xc16) full_count_of_events
                  (started f32_zero f32_zero f32_zero))) = 0 /\
  SpeedControlStep (T := xc16) 1000 0 1
    (hall_events (T := xc16) full_count_of_events
       (started f32_zero f32_zero f32_zero)) = None.
Proof.
  split; [lia |]. split; [vm_compute; discriminate |].
  split; [reflexivity |]. split; [vm_compute; reflexivity |].
  apply (@SpeedControlStep_after_counter_wrap xc16 1000 0 1
           full_count_of_events (started f32_zero f32_zero f32_zero)).
  - lia.
  - vm_compute. discriminate.
  - reflexivity.
  - vm_compute. reflexivity.
Defined.

(** X13 with four transitions of 52500 ticks: the estimate is 1000. *)
Lemma SpeedControlStep_estimate_over_events_witness :
  1 <> 0 /\
  hallCount (motorInfo (started f32_zero f32_zero f32_zero)) = 0 /\
  timer (started f32_zero f32_zero f32_zero) = 0 /\
  0 < Z.of_nat (length four_events) < 2 ^ hallCount_bits (Target := xc16) /\
  0 <= total_ticks four_events < 2 ^ 32 /\
  0 < total_ticks four_events / Z.of_nat (length four_events) /\
  exists st',
    SpeedControlStep (T := xc16) 1000 0 1
      (hall_events (T := xc16) four_events
         (started f32_zero f32_zero f32_zero)) = Some st' /\
    currentSpeed (motorInfo st') =
      52500000 / (total_ticks four_events / Z.of_nat (length four_events)).
Proof.
  split; [lia |]. split; [reflexivity |]. split; [reflexivity |].
  split; [vm_compute; split; reflexivity |].
  split; [vm_compute; split; [discriminate | reflexivity] |].
  split; [vm_compute; reflexivity |].
  apply (@SpeedControlStep_estimate_over_events xc16 1000 0 1 four_events
           (started f32_zero f32_zero f32_zero)).
  - lia.
  - reflexivity.
  - reflexivity.
  - vm_compute. split; reflexivity.
  - vm_compute. split; [discriminate | reflexivity].
  - vm_compute. reflexivity.
Defined.

(** X14 at the second control step with Kp = Ki = 1. *)
Lemma SpeedControlStep_estimate_range_witness :
  exists st',
    1 <> 0 /\
    changeState second_transition <> 0 /\
    0 <= timer second_transition /\
    0 <= hallCount (motorInfo second_transition) /\
    SpeedControlStep (T := xc16) 1500 0 1 second_transition = Some st' /\
    0 <= currentSpeed (motorInfo st') <= 52500000.
Proof.
  eexists.
  split; [lia |]. split; [vm_compute; lia |].
  split; [vm_compute; discriminate |]. split; [vm_compute; discriminate |].
  split; [vm_compute; reflexivity |].
  eapply (@SpeedControlStep_estimate_range xc16 1500 0 1 second_transition).
  - lia.
  - vm_compute. lia.
  - vm_compute. discriminate.
  - vm_compute. discriminate.
  - vm_compute. reflexivity.
Defined.

(** X15 with Kp = 100 and a stored error of 500: the sum is 50000. *)
Lemma SpeedControlStep_saturates_high_witness :
  exists st',
    1 <> 0 /\
    changeState (second_transition_at (f32_of_Z 100) f32_zero f32_zero 1500)
      <> 0 /\
    SpeedControlStep (T := xc16) 1500 0 1
      (second_transition_at (f32_of_Z 100) f32_zero f32_zero 1500) = Some st' /\
    f32_ltb (f32_of_Z 30000)
      (unclamped_output (T := xc16)
         (second_transition_at (f32_of_Z 100) f32_zero f32_zero 1500)) = true /\
    output (PIDs st') = f32_of_Z 30000 /\ commandedTorque st' = 1000.
Proof.
  eexists.
  split; [lia |]. split; [vm_compute; lia |].
  split; [vm_compute; reflexivity |].
  split; [vm_compute; reflexivity |].
  eapply (@SpeedControlStep_saturates_high xc16 1500 0 1
            (second_transition_at (f32_of_Z 100) f32_zero f32_zero 1500)).
  - lia.
  - vm_compute. lia.
  - vm_compute. reflexivity.
  - vm_compute. reflexivity.
Defined.

(** X16 with Kp = 1 and a stored error of -500. *)
Lemma SpeedControlStep_saturates_low_witness :
  exists st',
    1 <> 0 /\
    changeState (second_transition_at f32_one f32_zero f32_zero 500) <> 0 /\
    SpeedControlStep (T := xc16) 500 0 1
      (second_transition_at f32_one f32_zero f32_zero 500) = Some st' /\
    f32_ltb
      (unclamped_output (T := xc16)
         (second_transition_at f32_one f32_zero f32_zero 500))
      (f32_of_Z 0) = true /\
    output (PIDs st') = f32_of_Z 0 /\ commandedTorque st' = 0.
Proof.
  eexists.
  split; [lia |]. split; [vm_compute; lia |].
  split; [vm_compute; reflexivity |].
  split; [vm_compute; reflexivity |].
  eapply (@SpeedControlStep_saturates_low xc16 500 0 1
            (second_transition_at f32_one f32_zero f32_zero 500)).
  - lia.
  - vm_compute. lia.
  - vm_compute. reflexivity.
  - vm_compute. reflexivity.
Defined.

(** X17 after forty rounds that ask for 65535 from a rotor turning at
    1000: the integral has reached 2,000,000 and stays there. *)
Lemma SpeedControlStep_integral_stays_saturated_witness :
  exists st',
    1 <> 0 /\
    changeState after_forty_rounds <> 0 /\
    integral (PIDs after_forty_rounds) = f32_of_Z 2000000 /\
    f32_leb (f32_of_Z 0) (err (PIDs after_forty_rounds)) = true /\
    SpeedControlStep (T := xc16) 65535 0 1 after_forty_rounds = Some st' /\
    integral (PIDs st') = f32_of_Z 2000000.
Proof.
  eexists.
  split; [lia |]. split; [vm_compute; lia |].
  split; [vm_compute; reflexivity |].
  split; [vm_compute; reflexivity |].
  split; [vm_compute; reflexivity |].
  eapply (@SpeedControlStep_integral_stays_saturated xc16 65535 0 1
            after_forty_rounds).
  - lia.
  - vm_compute. lia.
  - vm_compute. reflexivity.
  - vm_compute. reflexivity.
  - vm_compute. reflexivity.
Defined.

(** X18 at the second control step with Kp = Ki = 1, followed by a
    transition at 110, for phase B. *)
Lemma SpeedControlStep_then_commutation_witness :
  exists st',
    1 <> 0 /\
    changeState second_transition <> 0 /\
    SpeedControlStep (T := xc16) 1500 0 1 second_transition = Some st' /\
    is_nan (output (PIDs st')) = false /\
    valid_hall hall_110 = true /\
    0 <= high_side (gates (hall_transition (T := xc16) 52500 hall_110 st'))
           PhaseB <= 1000 /\
    0 <= low_side (gates (hall_transition (T := xc16) 52500 hall_110 st'))
           PhaseB <= 1000.
Proof.
  eexists.
  split; [lia |]. split; [vm_compute; lia |].
  split; [vm_compute; reflexivity |].
  split; [vm_compute; reflexivity |].
  split; [reflexivity |].
  eapply (@SpeedControlStep_then_commutation_duty_range xc16 1500 0 1 52500
            hall_110 second_transition).
  - lia.
  - vm_compute. lia.
  - vm_compute. reflexivity.
  - vm_compute. reflexivity.
  - reflexivity.
Defined.

(** X19 for five more rounds after the forty that saturate the integral. *)
Lemma control_rounds_stay_saturated_witness :
  1 <= hallCount_bits (Target := xc16) /\
  0 < 52500 < 2 ^ 32 /\
  52500000 / 52500 <= 65535 /\
  saturated forty_rounds /\
  exists st',
    control_rounds (T := xc16) 5 52500 65535 forty_rounds = Some st' /\
    integral (PIDs st') = f32_of_Z 2000000.
Proof.
  split; [vm_compute; discriminate |].
  split; [vm_compute; split; reflexivity |].
  split; [vm_compute; discriminate |].
  split; [vm_compute; repeat split |].
  apply (@control_rounds_stay_saturated xc16 5 52500 65535 forty_rounds).
  - vm_compute. discriminate.
  - vm_compute. split; reflexivity.
  - vm_compute. discriminate.
  - vm_compute. repeat split.
Defined.
